(** * A shallow embedding of [scrap.py]

    The scraper fetches one listing page, locates the job cards on it,
    extracts one record per card on a thread pool (each extraction may fetch
    a detail page), collects the records in a dictionary keyed by the card's
    position, and stores the dictionary in a small SQLite schema.

    Conventions of the embedding:
    - a Python [str] is a [string]; every [ascii] stands for one character
      (a code point below 256), so slicing and stripping count characters;
    - a Python [dict] is an association list in insertion order with unique
      keys ([dict_set] keeps both);
    - effects (HTTP GET, [print], [time.sleep]) are recorded as a trace of
      events; a raised exception ends the computation with [Raise];
    - the network is a function from URLs to the outcome of a GET, the HTML
      parser is a function from page text to a document tree.  Both are
      parameters of the development. *)

From Stdlib Require Import ZArith Lia Ascii String DecimalString DecimalNat.
From stdpp Require Import gmap strings list fin_maps sorting.

Local Open Scope Z_scope.

#[local] Set Warnings "-clear-no-such-hyp,-register-all".

(* ===================================================================== *)
(** ** Python strings *)
(* ===================================================================== *)

Module Py.

(** [str.isspace] on one character, for code points below 256. *)
Definition isspace (c : ascii) : bool :=
  let n := nat_of_ascii c in
  ((9 <=? n)%nat && (n <=? 13)%nat)
  || ((28 <=? n)%nat && (n <=? 32)%nat)
  || (n =? 133)%nat || (n =? 160)%nat.

Fixpoint lstrip (s : string) : string :=
  match s with
  | EmptyString => EmptyString
  | String c s' => if isspace c then lstrip s' else s
  end.

Fixpoint rstrip (s : string) : string :=
  match s with
  | EmptyString => EmptyString
  | String c s' =>
      match rstrip s' with
      | EmptyString => if isspace c then EmptyString else String c EmptyString
      | r => String c r
      end
  end.

(** [s.strip()] *)
Definition strip (s : string) : string := rstrip (lstrip s).

(** [c in s] for a one-character [c]. *)
Fixpoint contains (c : ascii) (s : string) : bool :=
  match s with
  | EmptyString => false
  | String d s' => if Ascii.eqb d c then true else contains c s'
  end.

(** The text before and after the first occurrence of [sep]. *)
Fixpoint partition (sep : ascii) (s : string) : option (string * string) :=
  match s with
  | EmptyString => None
  | String c s' =>
      if Ascii.eqb c sep then Some (EmptyString, s')
      else match partition sep s' with
           | Some (a, b) => Some (String c a, b)
           | None => None
           end
  end.

(** [s.split(sep, 1)] for a one-character [sep]. *)
Definition split1 (sep : ascii) (s : string) : list string :=
  match partition sep s with
  | Some (a, b) => [a; b]
  | None => [s]
  end.

(** [s[n:]] *)
Fixpoint slice_from (n : nat) (s : string) : string :=
  match n, s with
  | O, _ => s
  | S n', String _ s' => slice_from n' s'
  | S _, EmptyString => EmptyString
  end.

(** [str(n)] and the [{n}] of an f-string, for integers. *)
Definition str_of_Z (z : Z) : string := NilZero.string_of_int (Z.to_int z).
Definition str_of_nat (n : nat) : string := NilZero.string_of_uint (Nat.to_uint n).

Definition digit_value (c : ascii) : option Z :=
  let n := nat_of_ascii c in
  if ((48 <=? n)%nat && (n <=? 57)%nat)%bool
  then Some (Z.of_nat (n - 48)) else None.

(** The digits of a decimal literal: at least one digit, single
    underscores allowed between digits only. *)
Fixpoint parse_digits (acc : Z) (after_digit : bool) (s : string) : option Z :=
  match s with
  | EmptyString => if after_digit then Some acc else None
  | String c s' =>
      if Ascii.eqb c "_"%char
      then (if after_digit then parse_digits acc false s' else None)
      else match digit_value c with
           | Some d => parse_digits (10 * acc + d) true s'
           | None => None
           end
  end.

(** The blanks [int] skips around a numeral: tab to carriage return and the
    space, and the two spaces above 127.  The separators 28 to 31, which
    [str.strip] removes, are not among them. *)
Definition int_space (c : ascii) : bool :=
  let n := nat_of_ascii c in
  ((9 <=? n)%nat && (n <=? 13)%nat)
  || (n =? 32)%nat || (n =? 133)%nat || (n =? 160)%nat.

Fixpoint int_lstrip (s : string) : string :=
  match s with
  | EmptyString => EmptyString
  | String c s' => if int_space c then int_lstrip s' else s
  end.

Fixpoint int_rstrip (s : string) : string :=
  match s with
  | EmptyString => EmptyString
  | String c s' =>
      match int_rstrip s' with
      | EmptyString => if int_space c then EmptyString else String c EmptyString
      | r => String c r
      end
  end.

(** The number of digits in a numeral; underscores do not count. *)
Fixpoint count_digits (s : string) : nat :=
  match s with
  | EmptyString => O
  | String c s' =>
      match digit_value c with
      | Some _ => S (count_digits s')
      | None => count_digits s'
      end
  end.

(** [sys.get_int_max_str_digits()], at its default: a decimal numeral with
    more digits is not converted. *)
Definition max_str_digits : nat := 4300.

(** [int(s)]: surrounding blanks, an optional sign, decimal digits, at most
    [max_str_digits] of them.  [None] stands for [ValueError]. *)
Definition split_sign (t : string) : bool * string :=
  match t with
  | String "+"%char r => (false, r)
  | String "-"%char r => (true, r)
  | _ => (false, t)
  end.

Definition int (s : string) : option Z :=
  let '(negative, digits) := split_sign (int_rstrip (int_lstrip s)) in
  if (max_str_digits <? count_digits digits)%nat then None
  else if negative : bool then Z.opp <$> parse_digits 0 false digits
       else parse_digits 0 false digits.

(** [len(s) > 0], the truth value of a string. *)
Definition truthy (s : string) : bool :=
  match s with EmptyString => false | _ => true end.

End Py.

(* ===================================================================== *)
(** ** The document tree and the selectors the scraper uses *)
(* ===================================================================== *)

Module Bs4.

(** A parsed document: text nodes and tags.  The multi-valued [class]
    attribute is kept as a list, the other attributes as name/value
    pairs. *)
Inductive node : Type :=
| NavigableString (s : string)
| Tag (name : string) (classes : list string)
      (attrs : list (string * string)) (contents : list node).

(** A compound selector [name] or [name.class]. *)
Record selector := Sel { sel_name : string; sel_class : option string }.

Definition has_class (c : string) (classes : list string) : bool :=
  existsb (String.eqb c) classes.

Definition matches (sel : selector) (n : node) : bool :=
  match n with
  | NavigableString _ => false
  | Tag name classes _ _ =>
      String.eqb name (sel_name sel)
      && match sel_class sel with
         | None => true
         | Some c => has_class c classes
         end
  end.

(** All nodes below [n], in document order. *)
Fixpoint descendants (n : node) : list node :=
  match n with
  | NavigableString _ => []
  | Tag _ _ _ cs => flat_map (fun c => c :: descendants c) cs
  end.

(** [n.select("name.class")] *)
Definition select (sel : selector) (n : node) : list node :=
  List.filter (matches sel) (descendants n).

(** [n.select_one("name.class")] *)
Definition select_one (sel : selector) (n : node) : option node :=
  head (select sel n).

(** [n.select("anc sel")]: the nodes below [n] that match [sel] and lie
    below a node matching [anc]; [inside] tells whether [n] does. *)
Fixpoint select_below (anc sel : selector) (inside : bool) (n : node)
  : list node :=
  match n with
  | NavigableString _ => []
  | Tag _ _ _ cs =>
      let inside' := inside || matches anc n in
      flat_map
        (fun c =>
           (if inside' && matches sel c then [c] else [])
             ++ select_below anc sel inside' c)
        cs
  end.

Definition select_one_below (anc sel : selector) (n : node) : option node :=
  head (select_below anc sel false n).

Fixpoint assoc (key : string) (l : list (string * string)) : option string :=
  match l with
  | [] => None
  | (k, v) :: l' => if String.eqb k key then Some v else assoc key l'
  end.

(** [n.get(key)]: [None] when the attribute is missing. *)
Definition get (key : string) (n : node) : option string :=
  match n with
  | NavigableString _ => None
  | Tag _ _ attrs _ => assoc key attrs
  end.

(** The text nodes below [n], in document order. *)
Fixpoint strings (n : node) : list string :=
  match n with
  | NavigableString s => [s]
  | Tag _ _ _ cs => flat_map strings cs
  end.

(** [n.get_text(strip=True)]: every text node stripped, the empty ones
    dropped, the rest joined without a separator. *)
Definition get_text_strip (n : node) : string :=
  foldr String.append EmptyString
    (List.filter Py.truthy (map Py.strip (strings n))).

End Bs4.

Import Bs4.

Definition div_card_content := Sel "div" (Some "card-content").
Definition h2_title := Sel "h2" (Some "title").
Definition h3_company := Sel "h3" (Some "company").
Definition p_location := Sel "p" (Some "location").
Definition time_tag := Sel "time" None.
Definition a_card_footer_item := Sel "a" (Some "card-footer-item").
Definition div_content := Sel "div" (Some "content").
Definition p_tag := Sel "p" None.

(* ===================================================================== *)
(** ** Effects: a trace of events and exceptions *)
(* ===================================================================== *)

Inductive exn := RequestException | ValueError | IndexError | KeyError.

Inductive event :=
| EvGet (url : string)        (* requests.get(url, ...) *)
| EvPrint (line : string)     (* print(line) *)
| EvSleep.                    (* time.sleep(0.1) *)

Inductive result (A : Type) :=
| Return (a : A)
| Raise (e : exn).
Arguments Return {A} a.
Arguments Raise {A} e.

(** A computation: the events it performed and how it ended. *)
Abbreviation M A := (list event * result A)%type.

Definition ret {A} (a : A) : M A := ([], Return a).
Definition raise {A} (e : exn) : M A := ([], Raise e).
Definition emit (ev : event) : M unit := ([ev], Return tt).

Definition bind {A B} (m : M A) (k : A → M B) : M B :=
  match m with
  | (t, Return a) => let '(t', r) := k a in (t ++ t', r)
  | (t, Raise e) => (t, Raise e)
  end.

Definition trace {A} (m : M A) : list event := fst m.
Definition outcome {A} (m : M A) : result A := snd m.

Notation "x <- c1 ;; c2" := (bind c1 (fun x => c2))
  (at level 100, c1 at next level, right associativity).
Notation "c1 ;;; c2" := (bind c1 (fun _ => c2))
  (at level 100, right associativity).

(** [l[i]] on a list: [IndexError] out of range. *)
Definition py_index {A} (l : list A) (i : nat) : M A :=
  match l !! i with
  | Some x => ret x
  | None => raise IndexError
  end.

Definition is_get (ev : event) : bool :=
  match ev with EvGet _ => true | _ => false end.

(** The GET requests of a trace, in order. *)
Definition gets (t : list event) : list event := List.filter is_get t.

(* ===================================================================== *)
(** ** Python dictionaries *)
(* ===================================================================== *)

(** A [dict] with integer keys, in insertion order. *)
Definition pydict (V : Type) : Type := list (nat * V).

(** [d[k] = v]: replaces the value in place when the key exists, appends a
    new item otherwise. *)
Fixpoint dict_set {V} (k : nat) (v : V) (d : pydict V) : pydict V :=
  match d with
  | [] => [(k, v)]
  | (k', v') :: d' =>
      if (k' =? k)%nat then (k', v) :: d' else (k', v') :: dict_set k v d'
  end.

(** [d.get(k)] *)
Fixpoint dict_get {V} (k : nat) (d : pydict V) : option V :=
  match d with
  | [] => None
  | (k', v') :: d' => if (k' =? k)%nat then Some v' else dict_get k d'
  end.

Definition dict_keys {V} (d : pydict V) : list nat := d.*1.

(** [enumerate(l)] *)
Definition enumerate {A} (l : list A) : list (nat * A) := imap pair l.

(* ===================================================================== *)
(** ** The records *)
(* ===================================================================== *)

Record Location := { ville : string; region : string }.

Record JobRecord := {
  title : string;
  company : string;
  location : Location;
  date : string;
  url : string;
  content : string
}.

(* ===================================================================== *)
(** ** The network and the scraper *)
(* ===================================================================== *)

(** What [requests.get] does for a URL: a response, or an exception of the
    transport (connection error, timeout, invalid URL). *)
Inductive http_outcome :=
| Response (status_code : Z) (text : string)
| TransportFailure.

Definition URL : string := "https://realpython.github.io/fake-jobs/".

Definition ESC : string := String (ascii_of_nat 27) "".
Definition e_grave : string := String (ascii_of_nat 232) "".
Definition e_acute : string := String (ascii_of_nat 233) "".

(** The name of the [w]-th thread of the first pool of the process. *)
Definition pool_thread_name (w : nat) : string :=
  "ThreadPoolExecutor-0_" +:+ Py.str_of_nat w.

(** How the pool ran the tasks: which thread ran the task submitted at each
    position, and the order in which [as_completed] hands the futures to
    the loop (positions in the list of futures).  That order is any
    permutation: the futures that are finished when the loop starts come
    first, in no order the code fixes, the others as they finish. *)
Record schedule := { worker_of : nat → nat; completion : list nat }.

(** A schedule of [n] tasks on [workers] threads. *)
Definition valid_schedule (workers : Z) (n : nat) (s : schedule) : Prop :=
  (∀ p, (p < n)%nat → Z.of_nat (worker_of s p) < workers)
  ∧ completion s ≡ₚ seq 0 n.

Section Scraper.

Variable web : string → http_outcome.
Variable html_parser : string → node.

Definition requests_get (url : string) : M (Z * string) :=
  emit (EvGet url) ;;;
  match web url with
  | Response st body => ret (st, body)
  | TransportFailure => raise RequestException
  end.

(** The part of the thread name after its first underscore. *)
Definition thread_suffix (th_name : option string) : M string :=
  match th_name with
  | Some s =>
      if Py.truthy s && Py.contains "_" s
      then py_index (Py.split1 "_" s) 1
      else ret ""
  | None => ret ""
  end.

Definition int_or_raise (s : string) : M Z :=
  match Py.int s with
  | Some n => ret n
  | None => raise ValueError
  end.

Definition fetch_html (url : string) (th_name : option string) : M string :=
  resp <- requests_get url ;;
  let '(status_code, text) := resp in
  if status_code =? 200 then
    thrd <- thread_suffix th_name ;;
    n <- (if Py.truthy thrd then int_or_raise thrd else ret 0) ;;
    let bg_code := 100 + n mod 7 in
    let m_th :=
      if Py.truthy thrd
      then ESC +:+ "[" +:+ Py.str_of_Z bg_code +:+ "mThread:" +:+ thrd
           +:+ ">" +:+ ESC +:+ "[0m"
      else "" in
    emit (EvPrint (m_th +:+ " Succ" +:+ e_grave +:+ "s ! Page "
                   +:+ Py.slice_from 19 url +:+ " r" +:+ e_acute
                   +:+ "cup" +:+ e_acute +:+ "r" +:+ e_acute +:+ "e.")) ;;;
    ret text
  else ret "".

Definition parse_cards (html : string) : pydict (string * node) :=
  let soup := html_parser html in
  foldl
    (fun cards '(idx, card) =>
       let title_el := select_one h2_title card in
       let title :=
         match title_el with
         | Some el => get_text_strip el
         | None => "Job " +:+ Py.str_of_nat idx
         end in
       dict_set idx (title, card) cards)
    [] (enumerate (select div_card_content soup)).

(** [n[key]] on a tag: [KeyError] when the attribute is missing. *)
Definition getitem (key : string) (n : node) : M string :=
  match get key n with
  | Some v => ret v
  | None => raise KeyError
  end.

Definition extract_info (thread_name : string) (idx : nat) (title : string)
    (card : node) : M (nat * JobRecord) :=
  emit EvSleep ;;;
  let company_elem := select_one h3_company card in
  let location_elem := select_one p_location card in
  let time_elem := select_one time_tag card in
  let links := select a_card_footer_item card in
  apply_href <-
    (if (1 <? length links)%nat
     then link <- py_index links 1 ;;
          href <- getitem "href" link ;;
          ret (Some href)
     else ret None) ;;
  let company :=
    match company_elem with Some el => get_text_strip el | None => "NC" end in
  let str_loc :=
    match location_elem with Some el => get_text_strip el | None => "NC,--" end in
  ville <- py_index (Py.split1 "," str_loc) 0 ;;
  region <- py_index (Py.split1 "," str_loc) 1 ;;
  let location := {| ville := ville; region := region |} in
  let date :=
    match time_elem with
    | Some el =>
        match get "datetime" el with
        | Some d => if Py.truthy d then d else get_text_strip el
        | None => get_text_strip el
        end
    | None => "NC"
    end in
  let url :=
    match apply_href with
    | Some href => if Py.truthy href then href else "NC"
    | None => "NC"
    end in
  content <-
    (if negb (String.eqb url "NC") then
       html_detail <- fetch_html url (Some thread_name) ;;
       if Py.truthy html_detail then
         let sub_soup := html_parser html_detail in
         match select_one_below div_content p_tag sub_soup with
         | Some p_elem => ret (get_text_strip p_elem)
         | None => ret ""
         end
       else ret ""
     else ret "") ;;
  ret (idx, {| title := title; company := company; location := location;
               date := date; url := url; content := content |}).

(** The [for future in as_completed(futures)] loop: the results of the
    futures are stored in the order [order] in which the loop receives
    them; the first future that ended with an exception re-raises it. *)
Fixpoint collect (futures : list (M (nat * JobRecord))) (order : list nat)
    (results : pydict JobRecord) : result (pydict JobRecord) :=
  match order with
  | [] => Return results
  | p :: order' =>
      match futures !! p with
      | Some (_, Return (idx, data)) =>
          collect futures order' (dict_set idx data results)
      | Some (_, Raise e) => Raise e
      | None => collect futures order' results
      end
  end.

(** The [with ThreadPoolExecutor(...)] block.  Leaving the block waits for
    every submitted task, so every task runs to its end whether or not the
    loop raised.  The events of a task are kept together and the tasks are
    listed in the order of the loop: how the threads interleave their
    events is not modelled. *)
Definition run_pool (futures : list (M (nat * JobRecord))) (order : list nat)
    : M (pydict JobRecord) :=
  (concat (map (fun p => from_option trace [] (futures !! p)) order),
   collect futures order []).

Definition scrape_jobs (workers : Z) (sched : schedule) : M (pydict JobRecord) :=
  html <- fetch_html URL (Some "") ;;
  if negb (Py.truthy html) then
    emit (EvPrint ("Impossible de r" +:+ e_acute +:+ "cup" +:+ e_acute
                   +:+ "rer la page.")) ;;;
    ret []
  else
    let cards := parse_cards html in
    if workers <=? 0 then raise ValueError
    else
      let futures :=
        imap (fun p '(idx, (title, container)) =>
                extract_info (pool_thread_name (worker_of sched p))
                             idx title container)
             cards in
      run_pool futures (completion sched).

End Scraper.

(* ===================================================================== *)
(** ** The SQLite store *)
(* ===================================================================== *)

(** A reference table ([titles] or [regions]): its rows [(id, value)] in
    insertion order, and the largest id the table has ever handed out (the
    [sqlite_sequence] entry behind [AUTOINCREMENT]).  A table that does not
    exist yet is the empty table: [CREATE TABLE IF NOT EXISTS] makes the
    two the same. *)
Record ref_table := { rows : list (Z * string); seq_no : Z }.

(** A row of [jobs] without its primary key. *)
Record job_row := {
  col_title_id : Z;
  col_company : string;
  col_ville : string;
  col_region_id : option Z;     (* [None] is SQL NULL *)
  col_date : string;
  col_url : string;
  col_content : string
}.

(** The database: [jobs] is keyed by its [INTEGER PRIMARY KEY]. *)
Record db := {
  titles : ref_table;
  regions : ref_table;
  jobs : gmap Z job_row
}.

Definition empty_table : ref_table := {| rows := []; seq_no := 0 |}.
Definition empty_db : db :=
  {| titles := empty_table; regions := empty_table; jobs := ∅ |}.

(** [SELECT id FROM t WHERE value = ?] followed by [fetchone()]. *)
Fixpoint select_id (value : string) (rs : list (Z * string)) : option Z :=
  match rs with
  | [] => None
  | (id, v) :: rs' => if String.eqb v value then Some id else select_id value rs'
  end.

Definition max_rowid (rs : list (Z * string)) : Z :=
  foldr (fun r m => Z.max r.1 m) 0 rs.

(** [INSERT INTO t (value) VALUES (?)] followed by [lastrowid]: the new id
    is one more than the largest id the table has ever held. *)
Definition insert_value (value : string) (t : ref_table) : Z * ref_table :=
  let id := Z.max (seq_no t) (max_rowid (rows t)) + 1 in
  (id, {| rows := rows t ++ [(id, value)]; seq_no := id |}).

(** The select-then-insert the sink runs for a title and for a region. *)
Definition lookup_or_insert (value : string) (t : ref_table) : Z * ref_table :=
  match select_id value (rows t) with
  | Some id => (id, t)
  | None => insert_value value t
  end.

(** One turn of the loop [for idx, item in data.items()].  The records are
    those [extract_info] builds, with every field present, so the defaults
    of [item.get] are never taken.  Ids are unbounded integers: the 64-bit
    range of SQLite is out of reach of a count of cards or of rows. *)
Definition save_item (idx : nat) (item : JobRecord) (d : db) : db :=
  let title := Py.strip (title item) in
  let company := company item in
  let ville := ville (location item) in
  let region := region (location item) in
  let date := date item in
  let url := url item in
  let content := content item in
  let '(title_id, titles') := lookup_or_insert title (titles d) in
  let '(region_id, regions') :=
    if Py.truthy region
    then let '(id, t) := lookup_or_insert region (regions d) in (Some id, t)
    else (None, regions d) in
  {| titles := titles';
     regions := regions';
     jobs := <[Z.of_nat idx :=
                 {| col_title_id := title_id; col_company := company;
                    col_ville := ville; col_region_id := region_id;
                    col_date := date; col_url := url;
                    col_content := content |}]> (jobs d) |}.

(** The loop and the single commit after it; the state returned is the
    committed one. *)
Definition save_sqlite (data : pydict JobRecord) (d : db) : db :=
  foldl (fun d '(idx, item) => save_item idx item d) d data.

Definition row_count (t : ref_table) : nat := length (rows t).

(* ===================================================================== *)
(** ** Concrete pages used in the examples *)
(* ===================================================================== *)

Module Demo.

Definition text_tag (name : string) (classes : list string) (s : string) : node :=
  Tag name classes [] [NavigableString s].

Definition footer_link (href : list (string * string)) (s : string) : node :=
  Tag "a" ["card-footer-item"] href [NavigableString s].

Definition detail_url : string :=
  "https://realpython.github.io/fake-jobs/jobs/senior-python-developer-0.html".

(** The card of the specification's example. *)
Definition card_full : node :=
  Tag "div" ["card-content"] []
    [ text_tag "h2" ["title"; "is-5"] " Senior Python Developer ";
      text_tag "h3" ["subtitle"; "is-6"; "company"] "Payne, Roberts and Davis";
      Tag "div" ["content"] []
        [ text_tag "p" ["location"] "
      Stewartbury, AA
    ";
          Tag "p" ["is-small"; "has-text-grey"] []
            [ Tag "time" [] [("datetime", "2023-08-11")]
                [NavigableString "2023-08-11"] ] ];
      Tag "footer" ["card-footer"] []
        [ footer_link [("href", "https://www.realpython.com")] "Learn";
          footer_link [("href", detail_url)] "Apply" ] ].

(** A card with nothing in it. *)
Definition card_bare : node := Tag "div" ["card-content"] [] [].

(** A card whose location has no comma. *)
Definition card_remote : node :=
  Tag "div" ["card-content"] [] [ text_tag "p" ["location"] "Remote" ].

(** A card whose second footer link has an empty [href]. *)
Definition card_empty_href : node :=
  Tag "div" ["card-content"] []
    [ footer_link [("href", "https://www.realpython.com")] "Learn";
      footer_link [("href", "")] "Apply" ].

(** A card whose second footer link has no [href] at all. *)
Definition card_no_href : node :=
  Tag "div" ["card-content"] []
    [ footer_link [] "Learn"; footer_link [] "Apply" ].

(** A card whose [time] node has an empty [datetime] attribute. *)
Definition card_empty_datetime : node :=
  Tag "div" ["card-content"] []
    [ Tag "time" [] [("datetime", "")] [NavigableString " Today "] ].

(** A card whose [time] node has no [datetime] attribute. *)
Definition card_text_date : node :=
  Tag "div" ["card-content"] []
    [ Tag "time" [] [] [NavigableString " Yesterday "] ].

Definition document (cs : list node) : node := Tag "[document]" [] [] cs.

Definition listing_doc : node := document [card_full; card_bare].
Definition remote_doc : node := document [card_full; card_remote].
Definition detail_doc : node :=
  document
    [ Tag "div" ["content"] []
        [ text_tag "p" [] "Prepare manuscript..." ; text_tag "p" [] "More" ] ].

(** The parser on the page texts of the examples. *)
Definition html_parser (html : string) : node :=
  if String.eqb html "<listing>" then listing_doc
  else if String.eqb html "<remote>" then remote_doc
  else if String.eqb html "<detail>" then detail_doc
  else document [].

(** A network that serves the listing and the detail page. *)
Definition web (url : string) : http_outcome :=
  if String.eqb url URL then Response 200 "<listing>"
  else if String.eqb url detail_url then Response 200 "<detail>"
  else if String.eqb url "https://www.realpython.com" then Response 200 ""
  else Response 404 "Not Found".

(** The same network with a listing that holds the comma-less card. *)
Definition web_remote (url : string) : http_outcome :=
  if String.eqb url URL then Response 200 "<remote>" else web url.

(** A network whose listing page is missing. *)
Definition web_404 (url : string) : http_outcome := Response 404 "Not Found".

(** A network that cannot be reached. *)
Definition web_down (url : string) : http_outcome := TransportFailure.

(** Tasks run on thread 0 and reach the loop in submission order. *)
Definition in_order (n : nat) : schedule :=
  {| worker_of := fun _ => 0%nat; completion := seq 0 n |}.

(** Tasks spread over the threads and reach the loop last to first. *)
Definition reversed (workers n : nat) : schedule :=
  {| worker_of := fun p => (p mod workers)%nat; completion := reverse (seq 0 n) |}.

Definition record_full : JobRecord :=
  {| title := "Senior Python Developer";
     company := "Payne, Roberts and Davis";
     location := {| ville := "Stewartbury"; region := " AA" |};
     date := "2023-08-11";
     url := detail_url;
     content := "Prepare manuscript..." |}.

Definition record_bare (t : string) : JobRecord :=
  {| title := t; company := "NC";
     location := {| ville := "NC"; region := "--" |};
     date := "NC"; url := "NC"; content := "" |}.

End Demo.

(* ===================================================================== *)
(** ** What a card holds, read off the same selectors as [extract_info] *)
(* ===================================================================== *)

(** The text [extract_info] splits into city and region. *)
Definition location_text (card : node) : string :=
  match select_one p_location card with
  | Some el => get_text_strip el
  | None => "NC,--"
  end.

(** The second footer link of the card, when there is one. *)
Definition second_link (card : node) : option node :=
  select a_card_footer_item card !! 1%nat.

(** The second footer link exists and has no [href] attribute. *)
Definition href_missing (card : node) : bool :=
  match second_link card with
  | Some link => match get "href" link with Some _ => false | None => true end
  | None => false
  end.

(** The URL the record of the card gets. *)
Definition card_url (card : node) : string :=
  match second_link card with
  | Some link =>
      match get "href" link with
      | Some href => if Py.truthy href then href else "NC"
      | None => "NC"
      end
  | None => "NC"
  end.

(** The title [parse_cards] gives the card found at position [idx]. *)
Definition card_title (idx : nat) (card : node) : string :=
  match select_one h2_title card with
  | Some el => get_text_strip el
  | None => "Job " +:+ Py.str_of_nat idx
  end.

(** The company the record of the card gets. *)
Definition card_company (card : node) : string :=
  match select_one h3_company card with
  | Some el => get_text_strip el
  | None => "NC"
  end.

(** The date the record of the card gets. *)
Definition card_date (card : node) : string :=
  match select_one time_tag card with
  | Some el =>
      match get "datetime" el with
      | Some d => if Py.truthy d then d else get_text_strip el
      | None => get_text_strip el
      end
  | None => "NC"
  end.

(** The content found on a detail page ([""] for an empty page). *)
Definition detail_content (html_parser : string → node) (html_detail : string)
    : string :=
  if Py.truthy html_detail then
    match select_one_below div_content p_tag (html_parser html_detail) with
    | Some p_elem => get_text_strip p_elem
    | None => ""
    end
  else "".

(** The detail fetch of a card, or no fetch when the card has no URL. *)
Definition detail_fetch (web : string → http_outcome) (thread_name : string)
    (card : node) : M string :=
  if negb (String.eqb (card_url card) "NC")
  then fetch_html web (card_url card) (Some thread_name)
  else ret "".

(** The line [scrape_jobs] prints when the listing page is empty. *)
Definition listing_failure_message : string :=
  "Impossible de r" +:+ e_acute +:+ "cup" +:+ e_acute +:+ "rer la page.".

(** The label is one [fetch_html] can number: it has no underscore, or what
    follows its first underscore is empty or a decimal literal that [int]
    converts. *)
Definition label_parses (th_name : option string) : Prop :=
  match th_name with
  | Some s =>
      match Py.partition "_" s with
      | Some (_, thrd) => Py.truthy thrd = true → is_Some (Py.int thrd)
      | None => True
      end
  | None => True
  end.

(** The thread numbers [int] reads back from a thread name: those written
    with at most [Py.max_str_digits] digits. *)
Definition thread_number_fits (w : nat) : Prop :=
  (String.length (Py.str_of_nat w) ≤ Py.max_str_digits)%nat.

(** No two rows of the table share an id or a value. *)
Definition table_unique (t : ref_table) : Prop :=
  NoDup (rows t).*1 ∧ NoDup (rows t).*2.

(** Every value the table [t] knows keeps its id in [t']. *)
Definition table_extends (t t' : ref_table) : Prop :=
  ∀ v id, select_id v (rows t) = Some id → select_id v (rows t') = Some id.

(** [row] is the fact row of [item] with respect to the reference tables of
    [d]: the title id is the id of the stripped title, the region id is
    the id of the region as it is (NULL for an empty region), the other
    columns are the fields of the record as they are. *)
Definition row_of_item (d : db) (item : JobRecord) (row : job_row) : Prop :=
  select_id (Py.strip (title item)) (rows (titles d)) = Some (col_title_id row)
  ∧ (if Py.truthy (region (location item))
     then ∃ rid, col_region_id row = Some rid
                 ∧ select_id (region (location item)) (rows (regions d)) = Some rid
     else col_region_id row = None)
  ∧ col_company row = company item
  ∧ col_ville row = ville (location item)
  ∧ col_date row = date item
  ∧ col_url row = url item
  ∧ col_content row = content item.

(** No step of the extraction of this card indexes out of range or reads a
    missing attribute. *)
Definition well_formed_card (card : node) : Prop :=
  href_missing card = false ∧ Py.contains "," (location_text card) = true.

(** The detail page of the card, if the card links to one, is served with
    status 200. *)
Definition detail_fetch_succeeds (web : string → http_outcome) (card : node) : Prop :=
  card_url card ≠ "NC" → ∃ body, web (card_url card) = Response 200 body.

(** The cards of the listing page the network serves ([[]] when the
    listing cannot be fetched). *)
Definition listing_cards (web : string → http_outcome)
    (html_parser : string → node) : list node :=
  match web URL with
  | Response status_code html =>
      if (status_code =? 200) && Py.truthy html
      then select div_card_content (html_parser html)
      else []
  | TransportFailure => []
  end.

(** Two runs agree: both raise, or both return dictionaries that are equal
    as mappings. *)
Definition same_mapping {V} (r1 r2 : result (pydict V)) : Prop :=
  match r1, r2 with
  | Return d1, Return d2 => ∀ k, dict_get k d1 = dict_get k d2
  | Raise _, Raise _ => True
  | _, _ => False
  end.

(** A string made of whitespace only. *)
Definition all_space (s : string) : Prop := Py.lstrip s = "".

(* ===================================================================== *)
(** ** Notions for the store as a whole *)
(* ===================================================================== *)

(** The largest id the table may not hand out again. *)
Definition high_water (t : ref_table) : Z :=
  Z.max (seq_no t) (max_rowid (rows t)).

(** [t'] is [t] with rows appended: the rows of [t] are all there, in
    place, and the appended rows carry increasing ids above every id [t]
    has held. *)
Definition table_grows (t t' : ref_table) : Prop :=
  ∃ added,
    rows t' = rows t ++ added
    ∧ high_water t ≤ high_water t'
    ∧ StronglySorted Z.lt added.*1
    ∧ ∀ id, id ∈ added.*1 → high_water t < id.

(** Every fact row refers to a row of [titles] and, unless its region id
    is NULL, to a row of [regions]. *)
Definition references_valid (d : db) : Prop :=
  ∀ k row, jobs d !! k = Some row →
    col_title_id row ∈ (rows (titles d)).*1
    ∧ ∀ rid, col_region_id row = Some rid → rid ∈ (rows (regions d)).*1.

(* ===================================================================== *)
(** ** Notions for the traces *)
(* ===================================================================== *)

Definition is_print (ev : event) : bool :=
  match ev with EvPrint _ => true | _ => false end.

(** The lines a trace prints, in order. *)
Definition prints (t : list event) : list event := List.filter is_print t.

(* ===================================================================== *)
(** ** The JSON dump *)
(* ===================================================================== *)

(** The values [json.dump] meets in a dictionary of records: strings and
    objects.  The members of an object are in insertion order. *)
Inductive json : Type :=
| JStr (s : string)
| JObj (members : list (string * json)).

Definition quote_char : ascii := ascii_of_nat 34.
Definition backslash_char : ascii := ascii_of_nat 92.
Definition newline_char : ascii := ascii_of_nat 10.

Definition hex_digit (n : nat) : ascii :=
  nth n (list_ascii_of_string "0123456789abcdef") "0"%char.

(** What the encoder writes for one character when [ensure_ascii] is off:
    the backslash, the quote and the characters below 32 are escaped, every
    other character is written as it is. *)
Definition escape_char (c : ascii) : string :=
  let n := nat_of_ascii c in
  if (n =? 92)%nat then String backslash_char (String backslash_char "")
  else if (n =? 34)%nat then String backslash_char (String quote_char "")
  else if (n =? 8)%nat then "\b"
  else if (n =? 12)%nat then "\f"
  else if (n =? 10)%nat then "\n"
  else if (n =? 13)%nat then "\r"
  else if (n =? 9)%nat then "\t"
  else if (n <? 32)%nat
       then "\u00" +:+ String (hex_digit (n / 16))
                              (String (hex_digit (n mod 16)) "")
  else String c "".

Fixpoint escape (s : string) : string :=
  match s with
  | EmptyString => EmptyString
  | String c s' => escape_char c +:+ escape s'
  end.

(** [encode_basestring(s)]: the escaped text between two quotes. *)
Definition encode_basestring (s : string) : string :=
  String quote_char (escape s +:+ String quote_char "").

Fixpoint spaces (n : nat) : string :=
  match n with
  | O => EmptyString
  | S n' => String " " (spaces n')
  end.

(** A line break followed by the indentation of a level ([indent=4]). *)
Definition newline_indent (level : nat) : string :=
  String newline_char (spaces (4 * level)).

(** The text [json.dump(..., indent=4)] writes for a value met at the given
    nesting level: an empty object is a pair of braces; the members of any
    other object come one per line, indented one level deeper, separated by
    commas, key and value separated by a colon and a blank. *)
Fixpoint iterencode (level : nat) (v : json) : string :=
  match v with
  | JStr s => encode_basestring s
  | JObj [] => "{}"
  | JObj members =>
      "{" +:+ newline_indent (S level)
      +:+ String.concat ("," +:+ newline_indent (S level))
            (map (fun kv =>
                    match kv with
                    | (k, v') =>
                        encode_basestring k +:+ ": " +:+ iterencode (S level) v'
                    end)
                 members)
      +:+ newline_indent level +:+ "}"
  end.

(** The dictionaries [extract_info] and [scrape_jobs] build, as values. *)
Definition location_json (l : Location) : json :=
  JObj [("ville", JStr (ville l)); ("region", JStr (region l))].

Definition record_json (r : JobRecord) : json :=
  JObj [("title", JStr (title r)); ("company", JStr (company r));
        ("location", location_json (location r)); ("date", JStr (date r));
        ("url", JStr (url r)); ("content", JStr (content r))].

(** An integer key is written as the string of its decimal digits. *)
Definition data_json (data : pydict JobRecord) : json :=
  JObj (map (fun kr => (Py.str_of_nat kr.1, record_json kr.2)) data).

(** [json.dump(data, f, ensure_ascii=False, indent=4)]: the text written. *)
Definition json_dumps (data : pydict JobRecord) : string :=
  iterencode 0 (data_json data).

(** The members of the document, as they stand between its braces. *)
Definition member_text (kr : nat * JobRecord) : string :=
  encode_basestring (Py.str_of_nat kr.1) +:+ ": "
  +:+ iterencode 1 (record_json kr.2).

Definition members_text (data : pydict JobRecord) : string :=
  String.concat ("," +:+ newline_indent 1) (map member_text data).

(** *** Paths and files *)

(** [p[:p.rfind("/") + 1]] *)
Fixpoint upto_last_slash (p : string) : string :=
  match p with
  | EmptyString => EmptyString
  | String c p' =>
      match upto_last_slash p' with
      | EmptyString => if Ascii.eqb c "/" then "/" else EmptyString
      | head => String c head
      end
  end.

Fixpoint all_slashes (s : string) : bool :=
  match s with
  | EmptyString => true
  | String c s' => Ascii.eqb c "/" && all_slashes s'
  end.

(** [s.rstrip("/")] *)
Fixpoint rstrip_slashes (s : string) : string :=
  match s with
  | EmptyString => EmptyString
  | String c s' =>
      match rstrip_slashes s' with
      | EmptyString => if Ascii.eqb c "/" then EmptyString else String c EmptyString
      | r => String c r
      end
  end.

(** [os.path.dirname(p)] of the POSIX path module. *)
Definition dirname (p : string) : string :=
  let head := upto_last_slash p in
  if Py.truthy head && negb (all_slashes head)
  then rstrip_slashes head
  else head.

(** What the program asks of the file system. *)
Inductive fs_op :=
| Makedirs (path : string)              (* os.makedirs(path, exist_ok=True) *)
| WriteFile (path content : string).    (* open(path, "w") and the writes *)

Definition save_json (data : pydict JobRecord) (filepath : string) : list fs_op :=
  let dirpath := dirname filepath in
  (if Py.truthy dirpath then [Makedirs dirpath] else [])
  ++ [WriteFile filepath (json_dumps data)].

(** *** Reading an encoded string back *)

Definition hex_value (c : ascii) : option nat :=
  let n := nat_of_ascii c in
  if ((48 <=? n) && (n <=? 57))%nat then Some (n - 48)%nat
  else if ((97 <=? n) && (n <=? 102))%nat then Some (n - 87)%nat
  else None.

Definition prepend (c : ascii) (r : option (string * string))
    : option (string * string) :=
  match r with
  | Some (s, rest) => Some (String c s, rest)
  | None => None
  end.

(** The text up to the closing quote with its escapes undone, and what
    follows the closing quote. *)
Fixpoint decode_body (s : string) : option (string * string) :=
  match s with
  | EmptyString => None
  | String c s1 =>
      if (nat_of_ascii c =? 34)%nat then Some (EmptyString, s1)
      else if (nat_of_ascii c =? 92)%nat then
        match s1 with
        | EmptyString => None
        | String e s2 =>
            let k := nat_of_ascii e in
            if (k =? 92)%nat then prepend backslash_char (decode_body s2)
            else if (k =? 34)%nat then prepend quote_char (decode_body s2)
            else if (k =? 98)%nat then prepend (ascii_of_nat 8) (decode_body s2)
            else if (k =? 102)%nat then prepend (ascii_of_nat 12) (decode_body s2)
            else if (k =? 110)%nat then prepend (ascii_of_nat 10) (decode_body s2)
            else if (k =? 114)%nat then prepend (ascii_of_nat 13) (decode_body s2)
            else if (k =? 116)%nat then prepend (ascii_of_nat 9) (decode_body s2)
            else if (k =? 117)%nat then
              match s2 with
              | String h1 (String h2 (String h3 (String h4 s3))) =>
                  match hex_value h1, hex_value h2, hex_value h3, hex_value h4 with
                  | Some a, Some b, Some c', Some d =>
                      prepend (ascii_of_nat (((a * 16 + b) * 16 + c') * 16 + d))
                              (decode_body s3)
                  | _, _, _, _ => None
                  end
              | _ => None
              end
            else None
        end
      else prepend c (decode_body s1)
  end.

(* ===================================================================== *)
(** ** The program as a whole *)
(* ===================================================================== *)

(** What a run of [main] leaves behind: the requests, sleeps and printed
    lines in order, the operations on the file system in order, the SQLite
    store, and how the run ended. *)
Record run_report := {
  console : list event;
  files : list fs_op;
  store : db;
  ended : result unit
}.

Definition json_path : string := "scrap/fake-jobs.json".
Definition db_path : string := "scrap/fake-jobs.db".

Section Program.

Variable web : string → http_outcome.
Variable html_parser : string → node.

(** [main], from the parsed arguments on.  [workers] is [args.workers];
    [elapsed] is the text of the duration the last line prints, which the
    clock decides; [d0] is the store found at [db_path].  The directory the
    sink makes for the store is listed with the file operations, its report
    line with the printed lines. *)
Definition main (workers : Z) (sched : schedule) (elapsed : string) (d0 : db)
    : run_report :=
  let start_line :=
    EvPrint ("D" +:+ e_acute +:+ "marrage du scraping avec "
             +:+ Py.str_of_Z workers +:+ " worker"
             +:+ (if 1 <? workers then "s" else "") +:+ " ...") in
  match scrape_jobs web html_parser workers sched with
  | (t, Raise e) =>
      {| console := start_line :: t; files := []; store := d0;
         ended := Raise e |}
  | (t, Return data) =>
      let count := Py.str_of_nat (length data) in
      {| console :=
           start_line :: t
           ++ [EvPrint (count +:+ " offres r" +:+ e_acute +:+ "cup" +:+ e_acute
                        +:+ "r" +:+ e_acute +:+ "es.");
               EvPrint (count +:+ " jobs " +:+ e_acute +:+ "crits dans "
                        +:+ db_path +:+ ".");
               EvPrint ("Dur" +:+ e_acute +:+ "e totale : " +:+ elapsed)];
         files :=
           save_json data json_path
           ++ (if Py.truthy (dirname db_path) then [Makedirs (dirname db_path)]
               else []);
         store := save_sqlite data d0;
         ended := Return tt |}
  end.

End Program.

(* ===================================================================== *)
(** ** Examples *)
(* ===================================================================== *)

Example strip_example : Py.strip "  Senior Dev
 " = "Senior Dev".
Proof. reflexivity. Qed.

Example split1_example : Py.split1 "," "Stewartbury, AA" = ["Stewartbury"; " AA"].
Proof. reflexivity. Qed.

Example split1_two_commas : Py.split1 "," "a,b,c" = ["a"; "b,c"].
Proof. reflexivity. Qed.

Example split1_no_comma : Py.split1 "," "Remote" = ["Remote"].
Proof. reflexivity. Qed.

Example int_examples :
  Py.int "12" = Some 12 ∧ Py.int " -1_000 " = Some (-1000) ∧ Py.int "" = None
  ∧ Py.int "1__0" = None ∧ Py.int "x" = None ∧ Py.int "007" = Some 7.
Proof. repeat split; reflexivity. Qed.

(** What [int] refuses although [str.strip] would trim it or the digits
    are well formed: a separator 28 to 31 next to the numeral, and a
    numeral of more than [max_str_digits] digits (leading zeros count, the
    sign and the blanks around do not). *)
Example int_refuses :
  Py.strip (String (ascii_of_nat 28) "7") = "7"
  ∧ Py.int (String (ascii_of_nat 28) "7") = None
  ∧ Py.int (String "7" (String (ascii_of_nat 31) "")) = None
  ∧ Py.int (String (ascii_of_nat 133) (String "7" (String (ascii_of_nat 160) "")))
    = Some 7
  ∧ Py.int (String.concat "" (replicate 4301 "0")) = None
  ∧ Py.int (" -" +:+ String.concat "" (replicate 4300 "0") +:+ " ") = Some 0.
Proof. repeat split; vm_compute; reflexivity. Qed.

(** A label that ends in such a text makes [fetch_html] raise on a page it
    has fetched. *)
Example fetch_html_separator_label :
  fetch_html Demo.web URL (Some (String "x" (String "_" (String (ascii_of_nat 28) "7"))))
  = ([EvGet URL], Raise ValueError).
Proof. reflexivity. Qed.

Example str_of_examples :
  Py.str_of_nat 0 = "0" ∧ Py.str_of_nat 105 = "105" ∧ Py.str_of_Z (-3) = "-3".
Proof. repeat split; reflexivity. Qed.


(** The example of the specification: one card, its detail page, its
    record. *)
Example extract_info_example :
  extract_info Demo.web Demo.html_parser (pool_thread_name 0) 0
    "Senior Python Developer" Demo.card_full
  = ([EvSleep; EvGet Demo.detail_url;
      EvPrint (ESC +:+ "[100mThread:0>" +:+ ESC +:+ "[0m Succ" +:+ e_grave
               +:+ "s ! Page github.io/fake-jobs/jobs/senior-python-developer-0.html r"
               +:+ e_acute +:+ "cup" +:+ e_acute +:+ "r" +:+ e_acute +:+ "e.")],
     Return (0%nat, Demo.record_full)).
Proof. reflexivity. Qed.

Example extract_info_no_href :
  extract_info Demo.web Demo.html_parser (pool_thread_name 0) 0 "Job 0"
    Demo.card_no_href
  = ([EvSleep], Raise KeyError).
Proof. reflexivity. Qed.

Example extract_info_text_date :
  outcome (extract_info Demo.web Demo.html_parser (pool_thread_name 0) 0
             "Job 0" Demo.card_text_date)
  = Return (0%nat, {| title := "Job 0"; company := "NC";
                      location := {| ville := "NC"; region := "--" |};
                      date := "Yesterday"; url := "NC"; content := "" |}).
Proof. reflexivity. Qed.

Example parse_cards_example :
  parse_cards Demo.html_parser "<listing>"
  = [(0%nat, ("Senior Python Developer", Demo.card_full));
     (1%nat, ("Job 1", Demo.card_bare))].
Proof. reflexivity. Qed.

Example scrape_jobs_example :
  outcome (scrape_jobs Demo.web Demo.html_parser 8 (Demo.reversed 8 2))
  = Return [(1%nat, Demo.record_bare "Job 1"); (0%nat, Demo.record_full)].
Proof. reflexivity. Qed.

Example scrape_jobs_no_workers :
  outcome (scrape_jobs Demo.web Demo.html_parser 0 (Demo.in_order 2))
  = Raise ValueError.
Proof. reflexivity. Qed.

Example fetch_html_bad_label :
  outcome (fetch_html Demo.web URL (Some "worker_x")) = Raise ValueError.
Proof. reflexivity. Qed.

Example save_sqlite_example :
  let d := save_sqlite [(0%nat, Demo.record_full);
                        (1%nat, Demo.record_bare " Senior Python Developer ")]
             empty_db in
  rows (titles d) = [(1, "Senior Python Developer")]
  ∧ rows (regions d) = [(1, " AA"); (2, "--")]
  ∧ col_title_id <$> jobs d !! 1 = Some 1
  ∧ col_region_id <$> jobs d !! 1 = Some (Some 2).
Proof. repeat split; reflexivity. Qed.

(* ===================================================================== *)
(** ** Computations: outcome and trace of a sequence *)
(* ===================================================================== *)

Lemma outcome_bind {A B} (m : M A) (k : A → M B) :
  outcome (bind m k)
  = match outcome m with
    | Return a => outcome (k a)
    | Raise e => Raise e
    end.
Proof. destruct m as [t [a|e]]; simpl; [destruct (k a)|]; reflexivity. Qed.

Lemma trace_bind {A B} (m : M A) (k : A → M B) :
  trace (bind m k)
  = trace m ++ match outcome m with
               | Return a => trace (k a)
               | Raise _ => []
               end.
Proof.
  destruct m as [t [a|e]]; simpl; [destruct (k a); reflexivity|].
  by rewrite app_nil_r.
Qed.

Lemma gets_app (t1 t2 : list event) : gets (t1 ++ t2) = gets t1 ++ gets t2.
Proof. apply List.filter_app. Qed.

Lemma gets_bind_ret {A B} (m : M A) (f : A → B) :
  gets (trace (x <- m ;; ret (f x))) = gets (trace m).
Proof.
  rewrite trace_bind, gets_app. destruct (outcome m); by rewrite app_nil_r.
Qed.

(* ===================================================================== *)
(** ** Strings: stripping and decimal numerals *)
(* ===================================================================== *)

Lemma truthy_true (s : string) : Py.truthy s = true ↔ s ≠ "".
Proof. destruct s; simpl; split; intros; congruence. Qed.

Lemma string_app_nil (s : string) : "" +:+ s = s.
Proof. reflexivity. Qed.

Lemma string_app_cons (c : ascii) (s t : string) :
  String c s +:+ t = String c (s +:+ t).
Proof. reflexivity. Qed.

Lemma lstrip_space_app (w s : string) :
  all_space w → Py.lstrip (w +:+ s) = Py.lstrip s.
Proof.
  unfold all_space. induction w as [|c w IH]; [done|].
  rewrite string_app_cons. simpl.
  destruct (Py.isspace c); [auto | discriminate].
Qed.

Lemma rstrip_space (w : string) : all_space w → Py.rstrip w = "".
Proof.
  unfold all_space. induction w as [|c w IH]; simpl; [done|].
  destruct (Py.isspace c); [|discriminate]. intros Hw. by rewrite IH.
Qed.

Lemma rstrip_app_space (s w : string) :
  all_space w → Py.rstrip (s +:+ w) = Py.rstrip s.
Proof.
  intros Hw. induction s as [|c s IH].
  - rewrite string_app_nil. by apply rstrip_space.
  - rewrite string_app_cons. simpl. by rewrite IH.
Qed.

Lemma lstrip_app_space (s w : string) :
  all_space w → Py.rstrip (Py.lstrip (s +:+ w)) = Py.rstrip (Py.lstrip s).
Proof.
  intros Hw. induction s as [|c s IH].
  - rewrite string_app_nil. by rewrite Hw.
  - rewrite string_app_cons. simpl. destruct (Py.isspace c); [done|].
    rewrite <- string_app_cons. by apply rstrip_app_space.
Qed.

(** Whitespace around a text does not change what [strip] returns. *)
Lemma strip_surrounded (w1 s w2 : string) :
  all_space w1 → all_space w2 → Py.strip (w1 +:+ s +:+ w2) = Py.strip s.
Proof.
  intros H1 H2. unfold Py.strip.
  rewrite lstrip_space_app by done. by apply lstrip_app_space.
Qed.

Lemma rstrip_uint (d : Decimal.uint) :
  Py.rstrip (NilEmpty.string_of_uint d) = NilEmpty.string_of_uint d.
Proof.
  induction d; simpl; try reflexivity;
    rewrite IHd; destruct (NilEmpty.string_of_uint d); reflexivity.
Qed.

Lemma strip_uint (d : Decimal.uint) :
  Py.strip (NilEmpty.string_of_uint d) = NilEmpty.string_of_uint d.
Proof.
  unfold Py.strip.
  replace (Py.lstrip (NilEmpty.string_of_uint d))
    with (NilEmpty.string_of_uint d) by (destruct d; reflexivity).
  apply rstrip_uint.
Qed.

Lemma parse_digits_uint (d : Decimal.uint) (acc : nat) (b : bool) :
  d ≠ Decimal.Nil ∨ b = true →
  Py.parse_digits (Z.of_nat acc) b (NilEmpty.string_of_uint d)
  = Some (Z.of_nat (Nat.of_uint_acc d acc)).
Proof.
  revert acc b. induction d; intros acc b Hb;
    [destruct Hb as [?| ->]; [done | reflexivity] | ..];
    cbn [NilEmpty.string_of_uint Py.parse_digits Nat.of_uint_acc];
    (replace (Ascii.eqb _ "_"%char) with false by reflexivity);
    match goal with
    | |- context [Py.digit_value ?c] =>
        let v := eval vm_compute in (Py.digit_value c) in
        change (Py.digit_value c) with v
    end;
    cbv iota; rewrite <- (IHd _ true) by auto; f_equal;
    rewrite ?Nat.tail_mul_spec; lia.
Qed.

Lemma int_lstrip_uint (d : Decimal.uint) :
  Py.int_lstrip (NilEmpty.string_of_uint d) = NilEmpty.string_of_uint d.
Proof. destruct d; reflexivity. Qed.

Lemma int_rstrip_uint (d : Decimal.uint) :
  Py.int_rstrip (NilEmpty.string_of_uint d) = NilEmpty.string_of_uint d.
Proof.
  induction d; simpl; try reflexivity;
    rewrite IHd; destruct (NilEmpty.string_of_uint d); reflexivity.
Qed.

Lemma split_sign_uint (d : Decimal.uint) :
  Py.split_sign (NilEmpty.string_of_uint d)
  = (false, NilEmpty.string_of_uint d).
Proof. destruct d; reflexivity. Qed.

Lemma count_digits_uint (d : Decimal.uint) :
  Py.count_digits (NilEmpty.string_of_uint d)
  = String.length (NilEmpty.string_of_uint d).
Proof.
  induction d; [reflexivity | ..];
    cbn [NilEmpty.string_of_uint Py.count_digits String.length];
    match goal with
    | |- context [Py.digit_value ?c] =>
        let v := eval vm_compute in (Py.digit_value c) in
        change (Py.digit_value c) with v
    end;
    cbv iota; by rewrite IHd.
Qed.

Lemma length_uint (d : Decimal.uint) :
  String.length (NilEmpty.string_of_uint d) = DecimalNat.Unsigned.usize d.
Proof. induction d; simpl; congruence. Qed.

(** [int(str(n)) == n], for a numeral within the digit limit. *)
Lemma int_uint (d : Decimal.uint) :
  d ≠ Decimal.Nil →
  (String.length (NilEmpty.string_of_uint d) ≤ Py.max_str_digits)%nat →
  Py.int (NilEmpty.string_of_uint d) = Some (Z.of_nat (Nat.of_uint d)).
Proof.
  intros Hd Hlen. unfold Py.int.
  rewrite int_lstrip_uint, int_rstrip_uint, split_sign_uint, count_digits_uint.
  destruct (Nat.ltb_spec Py.max_str_digits
              (String.length (NilEmpty.string_of_uint d))) as [Hlt|_]; [lia|].
  trans (Py.parse_digits (Z.of_nat 0) false (NilEmpty.string_of_uint d));
    [reflexivity|].
  apply parse_digits_uint. by left.
Qed.

Lemma to_uint_normal (n : nat) :
  Nat.to_uint n = Decimal.unorm (Nat.to_uint n).
Proof.
  pose proof (DecimalNat.Unsigned.to_of (Nat.to_uint n)) as H.
  by rewrite DecimalNat.Unsigned.of_to in H.
Qed.

Lemma to_uint_nonnil (n : nat) : Nat.to_uint n ≠ Decimal.Nil.
Proof. rewrite to_uint_normal. apply DecimalFacts.unorm_nonnil. Qed.

Lemma str_of_nat_uint (n : nat) :
  Py.str_of_nat n = NilEmpty.string_of_uint (Nat.to_uint n).
Proof.
  unfold Py.str_of_nat, NilZero.string_of_uint.
  pose proof (to_uint_nonnil n). by destruct (Nat.to_uint n).
Qed.

Lemma int_str_of_nat (n : nat) :
  (String.length (Py.str_of_nat n) ≤ Py.max_str_digits)%nat →
  Py.int (Py.str_of_nat n) = Some (Z.of_nat n).
Proof.
  rewrite str_of_nat_uint. intros Hlen.
  rewrite int_uint by (done || apply to_uint_nonnil).
  by rewrite DecimalNat.Unsigned.of_to.
Qed.

(** A numeral without a leading zero is at least the power of ten of its
    length. *)
Lemma of_uint_lower (d : Decimal.uint) :
  d ≠ Decimal.Nil → Decimal.nzhead d = d →
  (10 ^ (DecimalNat.Unsigned.usize d - 1) ≤ Nat.of_uint d)%nat.
Proof.
  intros Hd Hhead.
  destruct d; [done | by destruct (DecimalFacts.nzhead_nonzero d d) | ..];
    unfold Nat.of_uint; cbn [Nat.of_uint_acc DecimalNat.Unsigned.usize];
    rewrite DecimalNat.Unsigned.of_uint_acc_spec, Nat.sub_succ, Nat.sub_0_r,
      Nat.mul_succ_l;
    lia.
Qed.

(** [str(n)] has at most [k] digits when [n] is below [10 ** k]. *)
Lemma str_of_nat_length (n k : nat) :
  (0 < k)%nat → (n < 10 ^ k)%nat → (String.length (Py.str_of_nat n) ≤ k)%nat.
Proof.
  intros Hk Hn. rewrite str_of_nat_uint, length_uint.
  pose proof (to_uint_normal n) as Hnorm.
  pose proof (to_uint_nonnil n) as Hnil.
  pose proof (DecimalNat.Unsigned.of_to n) as Hval.
  destruct (Decimal.nzhead (Nat.to_uint n)) eqn:Hhead.
  { unfold Decimal.unorm in Hnorm. rewrite Hhead in Hnorm. rewrite Hnorm.
    simpl. lia. }
  all: rewrite DecimalFacts.unorm_nzhead in Hnorm by (by rewrite Hhead);
    pose proof (of_uint_lower (Nat.to_uint n) Hnil (eq_sym Hnorm)) as Hlow;
    rewrite Hval in Hlow;
    assert (DecimalNat.Unsigned.usize (Nat.to_uint n) - 1 < k)%nat
      by (apply (Nat.pow_lt_mono_r_iff 10); lia);
    lia.
Qed.

(** The threads of a pool of at most [10 ** max_str_digits] workers have
    numbers [int] reads back. *)
Lemma thread_number_fits_below (workers : Z) (w : nat) :
  workers ≤ 10 ^ Z.of_nat Py.max_str_digits → Z.of_nat w < workers →
  thread_number_fits w.
Proof.
  intros Hworkers Hw. apply str_of_nat_length.
  - unfold Py.max_str_digits. lia.
  - apply Nat2Z.inj_lt. rewrite Nat2Z.inj_pow.
    eapply Z.lt_le_trans; [exact Hw | exact Hworkers].
Qed.

Lemma pool_of_eight_fits : 8 ≤ 10 ^ Z.of_nat Py.max_str_digits.
Proof. apply Z.leb_le. vm_compute. reflexivity. Qed.

Lemma str_of_nat_nonempty (n : nat) : Py.truthy (Py.str_of_nat n) = true.
Proof.
  unfold Py.str_of_nat, NilZero.string_of_uint.
  destruct (Nat.to_uint n); reflexivity.
Qed.

(* ===================================================================== *)
(** ** The page fetcher *)
(* ===================================================================== *)

Section FetchFacts.

Variable web : string → http_outcome.

Lemma thread_suffix_pool (w : nat) :
  thread_suffix (Some (pool_thread_name w)) = ret (Py.str_of_nat w).
Proof. reflexivity. Qed.

(** What [fetch_html] does for any label: the GET is the only request; a
    transport failure and a label whose suffix is no number end it with
    an exception. *)
Lemma fetch_html_outcome (url : string) (th_name : option string) :
  outcome (fetch_html web url th_name)
  = match web url with
    | TransportFailure => Raise RequestException
    | Response status_code text =>
        if status_code =? 200 then
          match outcome (thread_suffix th_name) with
          | Return thrd =>
              if Py.truthy thrd
              then match Py.int thrd with
                   | Some _ => Return text
                   | None => Raise ValueError
                   end
              else Return text
          | Raise e => Raise e
          end
        else Return ""
    end.
Proof.
  unfold fetch_html, requests_get. rewrite !outcome_bind. simpl.
  destruct (web url) as [st body|]; simpl; [|done].
  destruct (st =? 200); [|done].
  rewrite outcome_bind.
  destruct (outcome (thread_suffix th_name)) as [thrd|e]; [|done].
  rewrite outcome_bind.
  destruct (Py.truthy thrd); [|done].
  unfold int_or_raise. destruct (Py.int thrd); done.
Qed.

Lemma fetch_html_gets (url : string) (th_name : option string) :
  gets (trace (fetch_html web url th_name)) = [EvGet url].
Proof.
  unfold fetch_html, requests_get. rewrite !trace_bind, !gets_app. simpl.
  destruct (web url) as [st body|]; simpl; [|done].
  destruct (st =? 200); [|done].
  rewrite trace_bind, gets_app.
  assert (Hs : gets (trace (thread_suffix th_name)) = []).
  { destruct th_name as [s|]; [|done]. unfold thread_suffix.
    destruct (_ && _); [|done]. unfold py_index. by destruct (_ !! _). }
  rewrite Hs. simpl.
  destruct (outcome (thread_suffix th_name)) as [thrd|e]; [|done].
  rewrite trace_bind, gets_app.
  destruct (Py.truthy thrd); simpl; [|done].
  unfold int_or_raise. destruct (Py.int thrd); done.
Qed.

(** From a pool thread whose number [int] reads back the label parses. *)
Lemma fetch_html_pool (url : string) (w : nat) :
  thread_number_fits w →
  outcome (fetch_html web url (Some (pool_thread_name w)))
  = match web url with
    | TransportFailure => Raise RequestException
    | Response status_code text =>
        Return (if status_code =? 200 then text else "")
    end.
Proof.
  intros Hw. rewrite fetch_html_outcome, thread_suffix_pool. simpl.
  rewrite str_of_nat_nonempty, int_str_of_nat by done.
  destruct (web url) as [st body|]; [|done]. by destruct (st =? 200).
Qed.

(** From the orchestrator the label is the empty string. *)
Lemma fetch_html_main (url : string) :
  outcome (fetch_html web url (Some ""))
  = match web url with
    | TransportFailure => Raise RequestException
    | Response status_code text =>
        Return (if status_code =? 200 then text else "")
    end.
Proof.
  rewrite fetch_html_outcome. simpl.
  destruct (web url) as [st body|]; [|done]. by destruct (st =? 200).
Qed.

End FetchFacts.

(* ===================================================================== *)
(** ** The record extractor *)
(* ===================================================================== *)

Section ExtractFacts.

Variable web : string → http_outcome.
Variable html_parser : string → node.

(** A step that returned: its outcome is its value, its trace is empty. *)
Ltac ret_outcome :=
  change (outcome (ret ?x)) with (Return x); cbv iota beta.
Ltac ret_trace :=
  change (gets (trace (ret ?x))) with (@nil event); rewrite app_nil_l.

Lemma second_link_href (links : list node) :
  (if (1 <? length links)%nat
   then link <- py_index links 1 ;;
        href <- getitem "href" link ;; ret (Some href)
   else ret None)
  = match links !! 1%nat with
    | Some link => match get "href" link with
                   | Some h => ret (Some h)
                   | None => raise KeyError
                   end
    | None => ret None
    end.
Proof.
  destruct links as [|l0 [|l1 ls]]; try reflexivity.
  cbn. unfold getitem. by destruct (get "href" l1).
Qed.

Lemma split1_index0 (s : string) :
  py_index (Py.split1 "," s) 0
  = ret (match Py.partition "," s with Some (a, _) => a | None => s end).
Proof. unfold Py.split1. by destruct (Py.partition "," s) as [[a b]|]. Qed.

Lemma split1_index1 (s : string) :
  py_index (Py.split1 "," s) 1
  = match Py.partition "," s with
    | Some (_, b) => ret b
    | None => raise IndexError
    end.
Proof. unfold Py.split1. by destruct (Py.partition "," s) as [[a b]|]. Qed.

(** How an extraction ends, step by step in the order of the code. *)
Lemma extract_info_outcome (th : string) (idx : nat) (t : string) (card : node) :
  outcome (extract_info web html_parser th idx t card)
  = if href_missing card then Raise KeyError
    else match Py.partition "," (location_text card) with
         | None => Raise IndexError
         | Some (v, r) =>
             match outcome (detail_fetch web th card) with
             | Raise e => Raise e
             | Return html_detail =>
                 Return (idx,
                         {| title := t;
                            company := card_company card;
                            location := {| ville := v; region := r |};
                            date := card_date card;
                            url := card_url card;
                            content := detail_content html_parser html_detail |})
             end
         end.
Proof.
  unfold extract_info.
  rewrite outcome_bind. change (outcome (emit EvSleep)) with (Return tt).
  cbv iota beta.
  rewrite outcome_bind, second_link_href.
  fold (second_link card) (location_text card) (card_company card)
    (card_date card).
  unfold href_missing, detail_fetch, card_url.
  destruct (second_link card) as [link|].
  - destruct (get "href" link) as [h|]; [|done].
    ret_outcome.
    rewrite outcome_bind, split1_index0.
    ret_outcome.
    rewrite outcome_bind, split1_index1.
    destruct (Py.partition "," (location_text card)) as [[v r]|]; [|done].
    ret_outcome.
    rewrite outcome_bind.
    destruct (negb (String.eqb (if Py.truthy h then h else "NC") "NC")).
    + rewrite outcome_bind.
      destruct (outcome (fetch_html web _ _)) as [html|e]; [|done].
      unfold detail_content.
      destruct (Py.truthy html); [|done].
      by destruct (select_one_below _ _ _).
    + done.
  - change (outcome (ret None)) with (@Return (option string) None).
    cbv iota beta.
    rewrite outcome_bind, split1_index0.
    ret_outcome.
    rewrite outcome_bind, split1_index1.
    destruct (Py.partition "," (location_text card)) as [[v r]|]; done.
Qed.

(** The requests of an extraction: at most the GET of the detail page. *)
Lemma extract_info_gets (th : string) (idx : nat) (t : string) (card : node) :
  gets (trace (extract_info web html_parser th idx t card))
  = if href_missing card then []
    else match Py.partition "," (location_text card) with
         | None => []
         | Some _ => gets (trace (detail_fetch web th card))
         end.
Proof.
  unfold extract_info.
  rewrite trace_bind, gets_app. change (outcome (emit EvSleep)) with (Return tt).
  cbv iota beta. change (gets (trace (emit EvSleep))) with (@nil event).
  rewrite app_nil_l.
  rewrite trace_bind, gets_app, second_link_href.
  fold (second_link card) (location_text card) (card_company card)
    (card_date card).
  unfold href_missing, detail_fetch, card_url.
  destruct (second_link card) as [link|].
  - destruct (get "href" link) as [h|]; [|done].
    ret_outcome.
    ret_trace.
    rewrite trace_bind, gets_app, split1_index0.
    ret_outcome.
    ret_trace.
    rewrite trace_bind, gets_app, split1_index1.
    destruct (Py.partition "," (location_text card)) as [[v r]|]; [|done].
    ret_outcome.
    ret_trace.
    rewrite gets_bind_ret.
    destruct (negb (String.eqb (if Py.truthy h then h else "NC") "NC")).
    + rewrite trace_bind, gets_app.
      destruct (outcome (fetch_html web _ _)) as [html|e];
        [|by rewrite !app_nil_r].
      destruct (Py.truthy html); [|by rewrite !app_nil_r].
      destruct (select_one_below _ _ _); by rewrite !app_nil_r.
    + done.
  - change (outcome (ret None)) with (@Return (option string) None).
    cbv iota beta.
    ret_trace.
    rewrite trace_bind, gets_app, split1_index0.
    ret_outcome.
    ret_trace.
    rewrite trace_bind, gets_app, split1_index1.
    destruct (Py.partition "," (location_text card)) as [[v r]|]; done.
Qed.

End ExtractFacts.

(* ===================================================================== *)
(** ** Properties of the page fetcher *)
(* ===================================================================== *)

(** C2, as stated, fails: when the GET itself fails (here on a network
    that cannot be reached) [fetch_html] does not return the empty string,
    the exception of the transport leaves it. *)
Lemma fetch_html_transport_failure_propagates :
  Demo.web_down URL = TransportFailure
  ∧ outcome (fetch_html Demo.web_down URL (Some "")) = Raise RequestException
  ∧ outcome (fetch_html Demo.web_down URL (Some "")) ≠ Return "".
Proof. repeat split. discriminate. Qed.

Lemma partition_contains (c : ascii) (s : string) :
  Py.contains c s = match Py.partition c s with Some _ => true | None => false end.
Proof.
  induction s as [|d s IH]; simpl; [done|].
  destruct (Ascii.eqb d c); [done|].
  rewrite IH. by destruct (Py.partition c s) as [[a b]|].
Qed.

Lemma thread_suffix_partition (s : string) :
  thread_suffix (Some s)
  = ret (match Py.partition "_" s with Some (_, thrd) => thrd | None => "" end).
Proof.
  destruct s as [|c s]; [reflexivity|].
  unfold thread_suffix, Py.split1. rewrite partition_contains.
  by destruct (Py.partition "_" (String c s)) as [[a b]|].
Qed.

(** The labels the program passes can be numbered: the empty label of the
    orchestrator, and the name of a pool thread whose number [int] reads
    back. *)
Lemma main_label_parses : label_parses (Some "").
Proof. done. Qed.

Lemma pool_label_parses (w : nat) :
  thread_number_fits w → label_parses (Some (pool_thread_name w)).
Proof.
  intros Hw. unfold label_parses.
  change (Py.partition "_" (pool_thread_name w))
    with (Some ("ThreadPoolExecutor-0", Py.str_of_nat w)).
  intros _. rewrite int_str_of_nat by done. by eexists.
Qed.

(** C2, amended: for every URL and every label that can be numbered (as
    the empty label and the names of the pool threads the program passes
    are, a thread number of more than 4300 digits apart), [fetch_html]
    returns the body on status 200 and the empty string on any other
    status; a transport failure is not caught and is raised to the caller.
    In every case the GET of [url] is its only request. *)
Theorem fetch_html_by_status (web : string → http_outcome) (url : string)
    (th_name : option string) :
  label_parses th_name →
  outcome (fetch_html web url th_name)
  = match web url with
    | Response status_code text =>
        Return (if status_code =? 200 then text else "")
    | TransportFailure => Raise RequestException
    end
  ∧ gets (trace (fetch_html web url th_name)) = [EvGet url].
Proof.
  intros Hlabel. split; [|apply fetch_html_gets].
  rewrite fetch_html_outcome.
  destruct (web url) as [st body|]; [|done].
  destruct (st =? 200); [|done].
  destruct th_name as [s|]; [|done].
  rewrite thread_suffix_partition. simpl in *.
  destruct (Py.partition "_" s) as [[a thrd]|]; [|done].
  destruct (Py.truthy thrd); [|done].
  by destruct (Hlabel eq_refl) as [n ->].
Qed.

Lemma fetch_html_by_status_witness :
  label_parses (Some (pool_thread_name 3))
  ∧ outcome (fetch_html Demo.web Demo.detail_url (Some (pool_thread_name 3)))
    = Return "<detail>"
  ∧ outcome (fetch_html Demo.web "https://example.org/"
               (Some (pool_thread_name 3))) = Return ""
  ∧ outcome (fetch_html Demo.web_down URL (Some (pool_thread_name 3)))
    = Raise RequestException.
Proof.
  assert (Hl : label_parses (Some (pool_thread_name 3)))
    by (apply pool_label_parses,
          (thread_number_fits_below 8 3 pool_of_eight_fits); lia).
  split; [exact Hl|].
  split; [|split].
  - exact (proj1 (fetch_html_by_status Demo.web Demo.detail_url _ Hl)).
  - exact (proj1 (fetch_html_by_status Demo.web "https://example.org/" _ Hl)).
  - exact (proj1 (fetch_html_by_status Demo.web_down URL _ Hl)).
Defined.

(* ===================================================================== *)
(** ** Properties of the record extractor *)
(* ===================================================================== *)

(** The sentinel ["NC,--"] serves the card that has no location node. *)
Lemma extract_info_no_location_node (web : string → http_outcome)
    (html_parser : string → node) (th : string) (idx : nat) (t : string)
    (card : node) (i : nat) (r : JobRecord) :
  select_one p_location card = None →
  outcome (extract_info web html_parser th idx t card) = Return (i, r) →
  location r = {| ville := "NC"; region := "--" |}.
Proof.
  intros Hloc. rewrite extract_info_outcome. unfold location_text.
  rewrite Hloc. destruct (href_missing card); [done|]. simpl.
  destruct (outcome (detail_fetch web th card)); [|done].
  by intros [= <- <-].
Qed.

Lemma partition_none_iff (s : string) :
  Py.partition "," s = None ↔ Py.contains "," s = false.
Proof.
  induction s as [|c s IH]; simpl; [done|].
  destruct (Ascii.eqb c ","); [done|].
  destruct (Py.partition "," s) as [[a b]|]; [|tauto].
  split; [done|]. intros H. apply IH in H. done.
Qed.

(** C3: the code breaks the claim.  For every card whose location node
    holds a text without a comma, [extract_info] does not complete: index 1
    of the split is out of range and [IndexError] is raised (unless the
    missing [href] of the second footer link raised [KeyError] first).  No
    record, and so no region ["--"], is produced. *)
Theorem extract_info_no_comma_raises (web : string → http_outcome)
    (html_parser : string → node) (th : string) (idx : nat) (t : string)
    (card el : node) :
  select_one p_location card = Some el →
  Py.contains "," (get_text_strip el) = false →
  outcome (extract_info web html_parser th idx t card)
  = Raise (if href_missing card then KeyError else IndexError).
Proof.
  intros Hel Hcomma. rewrite extract_info_outcome.
  destruct (href_missing card); [done|].
  apply partition_none_iff in Hcomma.
  unfold location_text. by rewrite Hel, Hcomma.
Qed.

Lemma extract_info_no_comma_raises_witness :
  select_one p_location Demo.card_remote
  = Some (Demo.text_tag "p" ["location"] "Remote")
  ∧ Py.contains "," (get_text_strip (Demo.text_tag "p" ["location"] "Remote"))
    = false
  ∧ outcome (extract_info Demo.web Demo.html_parser (pool_thread_name 0) 1
               "Job 1" Demo.card_remote) = Raise IndexError.
Proof.
  split; [reflexivity|]. split; [reflexivity|].
  exact (extract_info_no_comma_raises Demo.web Demo.html_parser
           (pool_thread_name 0) 1 "Job 1" Demo.card_remote _ eq_refl eq_refl).
Defined.

Lemma card_url_few_links (card : node) :
  (length (select a_card_footer_item card) < 2)%nat → card_url card = "NC".
Proof.
  unfold card_url, second_link. intros Hlen.
  rewrite lookup_ge_None_2; [done | lia].
Qed.

Lemma href_missing_few_links (card : node) :
  (length (select a_card_footer_item card) < 2)%nat → href_missing card = false.
Proof.
  unfold href_missing, second_link. intros Hlen.
  rewrite lookup_ge_None_2; [done | lia].
Qed.

(** C4, as stated, fails in its second half: a card with two footer links
    whose second link has an empty [href] gets the URL ["NC"], which is not
    what the second link holds. *)
Lemma url_not_taken_from_empty_href :
  ∃ link r,
    select a_card_footer_item Demo.card_empty_href !! 1%nat = Some link
    ∧ get "href" link = Some ""
    ∧ outcome (extract_info Demo.web Demo.html_parser (pool_thread_name 0) 0
                 "Job 0" Demo.card_empty_href) = Return (0%nat, r)
    ∧ url r = "NC"
    ∧ Some (url r) ≠ get "href" link.
Proof.
  eexists _, _. split; [reflexivity|]. split; [reflexivity|].
  split; [reflexivity|]. split; [reflexivity|]. discriminate.
Qed.

(** C4, amended: for every card with fewer than two footer links the
    extraction makes no request, and the record it produces (it produces
    one whenever the location text holds a comma) has url ["NC"] and an
    empty content; for every card whose second footer link carries a
    non-empty [href], the url of the record is that [href]. *)
Theorem extract_info_url (web : string → http_outcome)
    (html_parser : string → node) (th : string) (idx : nat) (t : string)
    (card : node) :
  let links := select a_card_footer_item card in
  let run := extract_info web html_parser th idx t card in
  ((length links < 2)%nat →
     gets (trace run) = []
     ∧ (∀ i r, outcome run = Return (i, r) → url r = "NC" ∧ content r = "")
     ∧ (Py.contains "," (location_text card) = true →
        ∃ r, outcome run = Return (idx, r)))
  ∧ (∀ link href i r,
       links !! 1%nat = Some link → get "href" link = Some href → href ≠ "" →
       outcome run = Return (i, r) → url r = href).
Proof.
  intros links run. subst run. split.
  - intros Hlen.
    pose proof (card_url_few_links card Hlen) as Hurl.
    pose proof (href_missing_few_links card Hlen) as Hhref.
    rewrite extract_info_gets, extract_info_outcome, Hhref.
    unfold detail_fetch. rewrite Hurl. simpl.
    split; [|split].
    + by destruct (Py.partition "," (location_text card)).
    + intros i r.
      destruct (Py.partition "," (location_text card)) as [[v r']|]; [|done].
      by intros [= <- <-].
    + intros Hcomma.
      destruct (Py.partition "," (location_text card)) as [[v r']|] eqn:Hp;
        [eauto|].
      apply partition_none_iff in Hp. congruence.
  - intros link href i r Hlink Hhref Hne.
    rewrite extract_info_outcome.
    assert (Hurl : card_url card = href).
    { unfold card_url, second_link. fold links. rewrite Hlink, Hhref.
      apply truthy_true in Hne. by rewrite Hne. }
    destruct (href_missing card); [done|].
    destruct (Py.partition "," (location_text card)) as [[v r']|]; [|done].
    destruct (outcome (detail_fetch web th card)); [|done].
    by intros [= <- <-].
Qed.

Lemma extract_info_url_witness :
  ((length (select a_card_footer_item Demo.card_bare) < 2)%nat
   ∧ gets (trace (extract_info Demo.web Demo.html_parser (pool_thread_name 0)
                    1 "Job 1" Demo.card_bare)) = []
   ∧ (∃ r, outcome (extract_info Demo.web Demo.html_parser
                      (pool_thread_name 0) 1 "Job 1" Demo.card_bare)
           = Return (1%nat, r)))
  ∧ (outcome (extract_info Demo.web Demo.html_parser (pool_thread_name 0) 0
                "Senior Python Developer" Demo.card_full)
     = Return (0%nat, Demo.record_full)
     ∧ url Demo.record_full = Demo.detail_url).
Proof.
  assert (Hlen : (length (select a_card_footer_item Demo.card_bare) < 2)%nat)
    by (simpl; lia).
  pose proof (proj1 (extract_info_url Demo.web Demo.html_parser
                       (pool_thread_name 0) 1 "Job 1" Demo.card_bare) Hlen)
    as (Hgets & _ & Hret).
  split; [split; [exact Hlen|]; split; [exact Hgets|]; exact (Hret eq_refl)|].
  assert (Hrun : outcome (extract_info Demo.web Demo.html_parser
                            (pool_thread_name 0) 0
                            "Senior Python Developer" Demo.card_full)
                 = Return (0%nat, Demo.record_full)) by reflexivity.
  split; [exact Hrun|].
  exact (proj2 (extract_info_url Demo.web Demo.html_parser
                  (pool_thread_name 0) 0 "Senior Python Developer"
                  Demo.card_full)
           (Demo.footer_link [("href", Demo.detail_url)] "Apply")
           Demo.detail_url 0%nat Demo.record_full
           eq_refl eq_refl ltac:(discriminate) Hrun).
Defined.

(** C5, as stated, fails: a [time] node that carries an empty [datetime]
    attribute does not give the record that (empty) value; the date is the
    display text. *)
Lemma date_ignores_empty_datetime :
  ∃ el r,
    select_one time_tag Demo.card_empty_datetime = Some el
    ∧ get "datetime" el = Some ""
    ∧ outcome (extract_info Demo.web Demo.html_parser (pool_thread_name 0) 0
                 "Job 0" Demo.card_empty_datetime) = Return (0%nat, r)
    ∧ date r = "Today"
    ∧ Some (date r) ≠ get "datetime" el.
Proof.
  eexists _, _. split; [reflexivity|]. split; [reflexivity|].
  split; [reflexivity|]. split; [reflexivity|]. discriminate.
Qed.

(** C5, amended: in every record [extract_info] produces, the date is the
    value of the [datetime] attribute when the card's [time] node is
    present and carries a non-empty one; otherwise, when the [time] node is
    present, its trimmed display text; otherwise ["NC"]. *)
Theorem extract_info_date (web : string → http_outcome)
    (html_parser : string → node) (th : string) (idx : nat) (t : string)
    (card : node) (i : nat) (r : JobRecord) :
  outcome (extract_info web html_parser th idx t card) = Return (i, r) →
  (∀ el d, select_one time_tag card = Some el → get "datetime" el = Some d →
           d ≠ "" → date r = d)
  ∧ (∀ el, select_one time_tag card = Some el →
           get "datetime" el = None ∨ get "datetime" el = Some "" →
           date r = get_text_strip el)
  ∧ (select_one time_tag card = None → date r = "NC").
Proof.
  rewrite extract_info_outcome.
  destruct (href_missing card); [done|].
  destruct (Py.partition "," (location_text card)) as [[v r']|]; [|done].
  destruct (outcome (detail_fetch web th card)); [|done].
  intros [= <- <-]. simpl. unfold card_date. repeat split.
  - intros el d -> -> Hd. apply truthy_true in Hd. by rewrite Hd.
  - intros el -> [-> | ->]; done.
  - by intros ->.
Qed.

Lemma extract_info_date_witness :
  outcome (extract_info Demo.web Demo.html_parser (pool_thread_name 0) 0
             "Senior Python Developer" Demo.card_full)
  = Return (0%nat, Demo.record_full)
  ∧ date Demo.record_full = "2023-08-11".
Proof.
  assert (Hrun : outcome (extract_info Demo.web Demo.html_parser
                            (pool_thread_name 0) 0
                            "Senior Python Developer" Demo.card_full)
                 = Return (0%nat, Demo.record_full)) by reflexivity.
  split; [exact Hrun|].
  exact (proj1 (extract_info_date _ _ _ _ _ _ _ _ Hrun)
           (Tag "time" [] [("datetime", "2023-08-11")]
              [NavigableString "2023-08-11"])
           "2023-08-11" eq_refl eq_refl ltac:(discriminate)).
Defined.

(* ===================================================================== *)
(** ** The orchestrator: the failure of the listing fetch *)
(* ===================================================================== *)

Lemma thread_suffix_trace (th_name : option string) :
  trace (thread_suffix th_name) = [].
Proof.
  destruct th_name as [s|]; [|done]. unfold thread_suffix.
  destruct (_ && _); [|done]. unfold py_index. by destruct (_ !! _).
Qed.

(** [fetch_html] never sleeps: its events are the GET and at most one
    printed line. *)
Lemma fetch_html_no_sleep (web : string → http_outcome) (url : string)
    (th_name : option string) :
  EvSleep ∉ trace (fetch_html web url th_name).
Proof.
  assert (Hint : ∀ s, trace (int_or_raise s) = [])
    by (intros s; unfold int_or_raise; by destruct (Py.int s)).
  unfold fetch_html, requests_get. rewrite !trace_bind. simpl.
  destruct (web url) as [st body|]; simpl;
    [|by intros [=]%list_elem_of_singleton].
  destruct (st =? 200); [|by intros [=]%list_elem_of_singleton].
  rewrite trace_bind, thread_suffix_trace.
  destruct (outcome (thread_suffix th_name)) as [thrd|e];
    [|by intros [=]%list_elem_of_singleton].
  rewrite trace_bind.
  destruct (Py.truthy thrd).
  - rewrite Hint. destruct (outcome (int_or_raise thrd)); simpl;
      rewrite ?elem_of_cons, ?elem_of_nil; intros H; by intuition.
  - simpl. rewrite ?elem_of_cons, ?elem_of_nil; intros H; by intuition.
Qed.

(** C8: if the fetch of the listing page returns empty content,
    [scrape_jobs] returns the empty dictionary, whatever the pool size, the
    schedule and the parser are: after the events of that one fetch it only
    prints its message.  The GET of the listing URL is its only request and
    no extraction starts (every extraction begins by sleeping). *)
Theorem scrape_jobs_empty_listing (web : string → http_outcome)
    (html_parser : string → node) (workers : Z) (sched : schedule) :
  outcome (fetch_html web URL (Some "")) = Return "" →
  let run := scrape_jobs web html_parser workers sched in
  run = (trace (fetch_html web URL (Some ""))
           ++ [EvPrint listing_failure_message], Return [])
  ∧ gets (trace run) = [EvGet URL]
  ∧ EvSleep ∉ trace run.
Proof.
  intros Hfetch run.
  assert (Hrun : run = (trace (fetch_html web URL (Some ""))
                          ++ [EvPrint listing_failure_message], Return [])).
  { subst run. unfold scrape_jobs.
    destruct (fetch_html web URL (Some "")) as [t o]. simpl in Hfetch.
    subst o. reflexivity. }
  split; [exact Hrun|]. rewrite Hrun. simpl. split.
  - by rewrite gets_app, fetch_html_gets.
  - pose proof (fetch_html_no_sleep web URL (Some "")) as Hns.
    rewrite elem_of_app, list_elem_of_singleton. by intros [?|[=]].
Qed.

Lemma scrape_jobs_empty_listing_witness :
  outcome (fetch_html Demo.web_404 URL (Some "")) = Return ""
  ∧ scrape_jobs Demo.web_404 Demo.html_parser 5 (Demo.in_order 0)
    = ([EvGet URL; EvPrint listing_failure_message], Return []).
Proof.
  split; [reflexivity|].
  exact (proj1 (scrape_jobs_empty_listing Demo.web_404 Demo.html_parser 5
                  (Demo.in_order 0) eq_refl)).
Defined.

(* ===================================================================== *)
(** ** The normalized sink *)
(* ===================================================================== *)

Section SinkFacts.

Implicit Types (t : ref_table) (d : db) (data : pydict JobRecord).

Lemma select_id_app (v : string) (rs rs' : list (Z * string)) :
  select_id v (rs ++ rs')
  = match select_id v rs with
    | Some id => Some id
    | None => select_id v rs'
    end.
Proof.
  induction rs as [|[id w] rs IH]; simpl; [done|].
  by destruct (String.eqb w v).
Qed.

Lemma select_id_elem (v : string) (rs : list (Z * string)) (id : Z) :
  select_id v rs = Some id → (id, v) ∈ rs.
Proof.
  induction rs as [|[id' w] rs IH]; simpl; [done|].
  destruct (String.eqb_spec w v) as [->|].
  - intros [= ->]. left.
  - intros H. right. auto.
Qed.

Lemma lookup_or_insert_found (v : string) t :
  select_id v (rows (lookup_or_insert v t).2) = Some (lookup_or_insert v t).1.
Proof.
  unfold lookup_or_insert.
  destruct (select_id v (rows t)) as [id|] eqn:Hsel; simpl; [done|].
  rewrite select_id_app, Hsel. simpl. by rewrite String.eqb_refl.
Qed.

Lemma lookup_or_insert_extends (v : string) t :
  table_extends t (lookup_or_insert v t).2.
Proof.
  intros w id Hw. unfold lookup_or_insert.
  destruct (select_id v (rows t)); simpl; [done|].
  by rewrite select_id_app, Hw.
Qed.

Lemma lookup_or_insert_known (v : string) t (id : Z) :
  select_id v (rows t) = Some id → lookup_or_insert v t = (id, t).
Proof. unfold lookup_or_insert. by intros ->. Qed.

(** A row a lookup-or-insert leaves in the table was there before or
    holds the value looked up. *)
Lemma lookup_or_insert_rows (v : string) t (id : Z) (w : string) :
  (id, w) ∈ rows (lookup_or_insert v t).2 → (id, w) ∈ rows t ∨ w = v.
Proof.
  unfold lookup_or_insert.
  destruct (select_id v (rows t)); simpl; [auto|].
  rewrite elem_of_app, list_elem_of_singleton. intros [?|[= _ ->]]; auto.
Qed.

Global Instance table_extends_preorder : PreOrder table_extends.
Proof. split; [by intros t v id | intros t1 t2 t3 H12 H23 v id ?; eauto]. Qed.

(** The three tables after one turn of the loop. *)
Lemma save_item_titles (idx : nat) (item : JobRecord) d :
  titles (save_item idx item d)
  = (lookup_or_insert (Py.strip (title item)) (titles d)).2.
Proof.
  unfold save_item. destruct (lookup_or_insert _ (titles d)).
  by destruct (if Py.truthy _ then _ else _).
Qed.

Lemma save_item_regions (idx : nat) (item : JobRecord) d :
  regions (save_item idx item d)
  = if Py.truthy (region (location item))
    then (lookup_or_insert (region (location item)) (regions d)).2
    else regions d.
Proof.
  unfold save_item. destruct (lookup_or_insert _ (titles d)).
  destruct (Py.truthy _); [|done].
  by destruct (lookup_or_insert _ (regions d)).
Qed.

Lemma save_item_jobs (idx : nat) (item : JobRecord) d :
  ∃ row, jobs (save_item idx item d) = <[Z.of_nat idx := row]> (jobs d)
         ∧ row_of_item (save_item idx item d) item row.
Proof.
  pose proof (save_item_titles idx item d) as Ht.
  pose proof (save_item_regions idx item d) as Hr.
  pose proof (lookup_or_insert_found (Py.strip (title item)) (titles d)) as Hft.
  pose proof (lookup_or_insert_found (region (location item)) (regions d)) as Hfr.
  unfold save_item in *.
  destruct (lookup_or_insert _ (titles d)) as [tid t'].
  destruct (Py.truthy (region (location item))) eqn:Htr.
  - destruct (lookup_or_insert _ (regions d)) as [rid r']. simpl in *.
    eexists. split; [reflexivity|]. unfold row_of_item. simpl.
    rewrite Htr. repeat split; eauto.
  - simpl in *. eexists. split; [reflexivity|]. unfold row_of_item. simpl.
    rewrite Htr. repeat split; eauto.
Qed.

Lemma save_item_extends (idx : nat) (item : JobRecord) d :
  table_extends (titles d) (titles (save_item idx item d))
  ∧ table_extends (regions d) (regions (save_item idx item d)).
Proof.
  rewrite save_item_titles, save_item_regions. split.
  - apply lookup_or_insert_extends.
  - destruct (Py.truthy _); [apply lookup_or_insert_extends | reflexivity].
Qed.

Lemma save_sqlite_cons data (idx : nat) (item : JobRecord) d :
  save_sqlite ((idx, item) :: data) d
  = save_sqlite data (save_item idx item d).
Proof. reflexivity. Qed.

Lemma save_sqlite_extends data d :
  table_extends (titles d) (titles (save_sqlite data d))
  ∧ table_extends (regions d) (regions (save_sqlite data d)).
Proof.
  revert d. induction data as [|[idx item] data IH]; intros d.
  - split; reflexivity.
  - rewrite save_sqlite_cons.
    destruct (IH (save_item idx item d)) as [IHt IHr].
    destruct (save_item_extends idx item d) as [Ht Hr].
    split; etrans; eauto.
Qed.

Lemma row_of_item_extends d d' (item : JobRecord) (row : job_row) :
  table_extends (titles d) (titles d') →
  table_extends (regions d) (regions d') →
  row_of_item d item row → row_of_item d' item row.
Proof.
  intros Ht Hr (Htitle & Hregion & Hrest). split; [by apply Ht|].
  split; [|done].
  destruct (Py.truthy _); [|done].
  destruct Hregion as (rid & ? & ?). exists rid. split; [done|]. by apply Hr.
Qed.

End SinkFacts.

Section SinkRuns.

Implicit Types (d : db) (data : pydict JobRecord).

(** After a run, the stripped title and the non-empty region of every
    record of the run are in the reference tables. *)
Lemma save_sqlite_covers data d (idx : nat) (item : JobRecord) :
  (idx, item) ∈ data →
  is_Some (select_id (Py.strip (title item)) (rows (titles (save_sqlite data d))))
  ∧ (Py.truthy (region (location item)) = true →
     is_Some (select_id (region (location item))
                (rows (regions (save_sqlite data d))))).
Proof.
  revert d. induction data as [|[k it] data IH]; intros d Hin.
  - by apply elem_of_nil in Hin.
  - rewrite save_sqlite_cons.
    apply elem_of_cons in Hin as [[= -> ->]|Hin]; [|by apply IH].
    destruct (save_sqlite_extends data (save_item k it d)) as [Ht Hr].
    split.
    + eexists. apply Ht. rewrite save_item_titles.
      apply lookup_or_insert_found.
    + intros Htr. eexists. apply Hr. rewrite save_item_regions, Htr.
      apply lookup_or_insert_found.
Qed.

(** A run over records whose values the tables already know leaves the
    reference tables as they are. *)
Lemma save_sqlite_known data d :
  (∀ idx item, (idx, item) ∈ data →
     is_Some (select_id (Py.strip (title item)) (rows (titles d)))
     ∧ (Py.truthy (region (location item)) = true →
        is_Some (select_id (region (location item)) (rows (regions d))))) →
  titles (save_sqlite data d) = titles d
  ∧ regions (save_sqlite data d) = regions d.
Proof.
  revert d. induction data as [|[k it] data IH]; intros d Hknown; [done|].
  rewrite save_sqlite_cons.
  assert (Ht : titles (save_item k it d) = titles d).
  { destruct (Hknown k it) as [[id Hid] _]; [left|].
    rewrite save_item_titles. by rewrite (lookup_or_insert_known _ _ _ Hid). }
  assert (Hr : regions (save_item k it d) = regions d).
  { rewrite save_item_regions.
    destruct (Py.truthy _) eqn:Htr; [|done].
    destruct (Hknown k it) as [_ Hreg]; [left|].
    destruct (Hreg Htr) as [id Hid].
    by rewrite (lookup_or_insert_known _ _ _ Hid). }
  destruct (IH (save_item k it d)) as [IHt IHr].
  - intros idx item Hin. rewrite Ht, Hr. apply (Hknown idx). by right.
  - by rewrite IHt, IHr.
Qed.

(** The keys of [jobs] after a run: those it had and those of the run. *)
Lemma save_sqlite_dom data d :
  dom (jobs (save_sqlite data d))
  = dom (jobs d) ∪ list_to_set (Z.of_nat <$> dict_keys data).
Proof.
  revert d. induction data as [|[k it] data IH]; intros d.
  - simpl. set_solver.
  - rewrite save_sqlite_cons, IH.
    destruct (save_item_jobs k it d) as (row & -> & _).
    rewrite dom_insert_L. unfold dict_keys. simpl. set_solver.
Qed.

(** The fact row of every record of a run, after the run. *)
Lemma save_sqlite_row data d (idx : nat) (item : JobRecord) :
  NoDup (dict_keys data) → (idx, item) ∈ data →
  ∃ row, jobs (save_sqlite data d) !! Z.of_nat idx = Some row
         ∧ row_of_item (save_sqlite data d) item row.
Proof.
  revert d. induction data as [|[k it] data IH]; intros d Hnd Hin.
  - by apply elem_of_nil in Hin.
  - unfold dict_keys in Hnd. simpl in Hnd. apply NoDup_cons in Hnd as [Hk Hnd].
    rewrite save_sqlite_cons.
    apply elem_of_cons in Hin as [[= -> ->]|Hin]; [|by apply IH].
    destruct (save_item_jobs k it d) as (row & Hjobs & Hrow).
    exists row. split.
    + assert (Hkeep : ∀ data' d',
                k ∉ dict_keys data' →
                jobs (save_sqlite data' d') !! Z.of_nat k
                = jobs d' !! Z.of_nat k).
      { clear. induction data' as [|[k' it'] data' IH']; intros d' Hk'; [done|].
        rewrite save_sqlite_cons, IH'.
        - destruct (save_item_jobs k' it' d') as (row' & -> & _).
          apply lookup_insert_ne. intros ?%Nat2Z.inj. subst k'.
          apply Hk'. left.
        - intros ?. apply Hk'. by right. }
      rewrite Hkeep by done. rewrite Hjobs. apply lookup_insert_eq.
    + destruct (save_sqlite_extends data (save_item k it d)) as [Ht Hr].
      by eapply row_of_item_extends.
Qed.

(** Every title row after a run was there before the run or holds the
    stripped title of a record of the run; every region row was there
    before or holds the region of a record as it is. *)
Lemma save_sqlite_new_rows data d :
  (∀ id v, (id, v) ∈ rows (titles (save_sqlite data d)) →
     (id, v) ∈ rows (titles d)
     ∨ ∃ idx item, (idx, item) ∈ data ∧ v = Py.strip (title item))
  ∧ (∀ id v, (id, v) ∈ rows (regions (save_sqlite data d)) →
       (id, v) ∈ rows (regions d)
       ∨ ∃ idx item, (idx, item) ∈ data ∧ v = region (location item)).
Proof.
  revert d. induction data as [|[k it] data IH]; intros d.
  - split; intros id v Hin; by left.
  - rewrite save_sqlite_cons.
    destruct (IH (save_item k it d)) as [IHt IHr]. split; intros id v Hin.
    + apply IHt in Hin as [Hin|(idx & item & ? & ?)].
      * rewrite save_item_titles in Hin.
        apply lookup_or_insert_rows in Hin as [?| ->]; [by left|].
        right. exists k, it. split; [left | done].
      * right. exists idx, item. split; [by right | done].
    + apply IHr in Hin as [Hin|(idx & item & ? & ?)].
      * rewrite save_item_regions in Hin.
        destruct (Py.truthy _); [|by left].
        apply lookup_or_insert_rows in Hin as [?| ->]; [by left|].
        right. exists k, it. split; [left | done].
      * right. exists idx, item. split; [by right | done].
Qed.

End SinkRuns.

(** C6: for every dictionary of records and every state of the store,
    a second run of the sink with the same dictionary changes neither
    reference table (so their row counts stay the same: no title or region
    is inserted twice), and the fact rows are replaced by key, so the row
    count of [jobs] stays the same as well. *)
Theorem save_sqlite_twice (data : pydict JobRecord) (d0 : db) :
  let d1 := save_sqlite data d0 in
  let d2 := save_sqlite data d1 in
  row_count (titles d2) = row_count (titles d1)
  ∧ row_count (regions d2) = row_count (regions d1)
  ∧ size (jobs d2) = size (jobs d1)
  ∧ titles d2 = titles d1
  ∧ regions d2 = regions d1
  ∧ dom (jobs d2) = dom (jobs d1).
Proof.
  intros d1 d2.
  destruct (save_sqlite_known data d1) as [Ht Hr].
  { intros idx item Hin. by apply (save_sqlite_covers data d0 idx). }
  assert (Hdom : dom (jobs d2) = dom (jobs d1)).
  { subst d2 d1. rewrite !save_sqlite_dom. set_solver. }
  fold d2 in Ht, Hr. rewrite Ht, Hr.
  repeat split; try done.
  by rewrite <- !size_dom, Hdom.
Qed.

(** *** One id per value: ids and values stay unique *)

Lemma max_rowid_ge (rs : list (Z * string)) (id : Z) (v : string) :
  (id, v) ∈ rs → id ≤ max_rowid rs.
Proof.
  induction rs as [|[id' w] rs IH]; simpl.
  - by intros ?%elem_of_nil.
  - rewrite elem_of_cons. intros [[= -> ->]|Hin]; [lia|].
    apply IH in Hin. lia.
Qed.

Lemma select_id_None (v : string) (rs : list (Z * string)) :
  select_id v rs = None → v ∉ rs.*2.
Proof.
  induction rs as [|[id w] rs IH]; simpl; [intros _; apply not_elem_of_nil|].
  destruct (String.eqb_spec w v) as [->|Hne]; [done|].
  intros Hsel. rewrite not_elem_of_cons. split; [congruence | auto].
Qed.

(** A new id is larger than every id of the table. *)
Lemma insert_value_larger (v : string) (t : ref_table) (id : Z) (w : string) :
  (id, w) ∈ rows t → id < (insert_value v t).1.
Proof. intros Hin%max_rowid_ge. simpl. lia. Qed.

Lemma lookup_or_insert_unique (v : string) (t : ref_table) :
  table_unique t → table_unique (lookup_or_insert v t).2.
Proof.
  intros [Hids Hvals]. unfold lookup_or_insert.
  destruct (select_id v (rows t)) eqn:Hsel; [done|].
  unfold table_unique. simpl. rewrite !fmap_app. simpl. split.
  - apply NoDup_app. split; [done|]. split; [|apply NoDup_singleton].
    intros id Hin ->%list_elem_of_singleton.
    apply list_elem_of_fmap in Hin as ([id' w] & Heq & Hin). simpl in Heq.
    apply max_rowid_ge in Hin. lia.
  - apply NoDup_app. split; [done|]. split; [|apply NoDup_singleton].
    intros w Hin ->%list_elem_of_singleton.
    by apply select_id_None in Hsel.
Qed.

Lemma save_sqlite_unique (data : pydict JobRecord) (d : db) :
  table_unique (titles d) → table_unique (regions d) →
  table_unique (titles (save_sqlite data d))
  ∧ table_unique (regions (save_sqlite data d)).
Proof.
  revert d. induction data as [|[k it] data IH]; intros d Ht Hr; [done|].
  rewrite save_sqlite_cons. apply IH.
  - rewrite save_item_titles. by apply lookup_or_insert_unique.
  - rewrite save_item_regions. destruct (Py.truthy _); [|done].
    by apply lookup_or_insert_unique.
Qed.

Lemma select_id_injective (t : ref_table) (v w : string) (id : Z) :
  table_unique t →
  select_id v (rows t) = Some id → select_id w (rows t) = Some id → v = w.
Proof.
  intros [Hids _] Hv%select_id_elem Hw%select_id_elem.
  induction (rows t) as [|[id' u] rs IH]; [by apply elem_of_nil in Hv|].
  simpl in Hids. apply NoDup_cons in Hids as [Hid Hids].
  apply elem_of_cons in Hv as [Hv|Hv]; apply elem_of_cons in Hw as [Hw|Hw].
  - congruence.
  - exfalso. injection Hv as <- <-. apply Hid.
    apply list_elem_of_fmap. by exists (id, w).
  - exfalso. injection Hw as <- <-. apply Hid.
    apply list_elem_of_fmap. by exists (id, v).
  - by apply IH.
Qed.

(** On a store whose reference tables hold no id and no value twice, two
    records whose stripped titles differ get different title ids. *)
Lemma save_sqlite_distinct_titles (data : pydict JobRecord) (d0 : db)
    (i1 i2 : nat) (r1 r2 : JobRecord) (row1 row2 : job_row) :
  table_unique (titles d0) → table_unique (regions d0) →
  NoDup (dict_keys data) →
  (i1, r1) ∈ data → (i2, r2) ∈ data →
  jobs (save_sqlite data d0) !! Z.of_nat i1 = Some row1 →
  jobs (save_sqlite data d0) !! Z.of_nat i2 = Some row2 →
  Py.strip (title r1) ≠ Py.strip (title r2) →
  col_title_id row1 ≠ col_title_id row2.
Proof.
  intros Ht Hr Hnd H1 H2 Hj1 Hj2 Hne Heq.
  destruct (save_sqlite_row data d0 i1 r1 Hnd H1) as (row1' & Hj1' & Ht1 & _).
  destruct (save_sqlite_row data d0 i2 r2 Hnd H2) as (row2' & Hj2' & Ht2 & _).
  assert (row1' = row1) as -> by congruence.
  assert (row2' = row2) as -> by congruence.
  destruct (save_sqlite_unique data d0 Ht Hr) as [Hu _].
  rewrite <- Heq in Ht2. apply Hne.
  eapply select_id_injective; eauto.
Qed.

(** C7: for every dictionary of records, every state of the store and
    every two records of the dictionary, the sink stores a fact row for
    each; when the titles are equal the two rows carry the same title id,
    and when the regions are equal and not empty the two rows carry the
    same region id, which is not NULL.  The id is the one the reference
    table holds for the value. *)
Theorem save_sqlite_dedup (data : pydict JobRecord) (d0 : db)
    (i1 i2 : nat) (r1 r2 : JobRecord) :
  NoDup (dict_keys data) →
  (i1, r1) ∈ data → (i2, r2) ∈ data →
  let d1 := save_sqlite data d0 in
  ∃ row1 row2,
    jobs d1 !! Z.of_nat i1 = Some row1
    ∧ jobs d1 !! Z.of_nat i2 = Some row2
    ∧ (title r1 = title r2 →
       col_title_id row1 = col_title_id row2
       ∧ (col_title_id row1, Py.strip (title r1)) ∈ rows (titles d1))
    ∧ (region (location r1) = region (location r2) →
       region (location r1) ≠ "" →
       ∃ rid, col_region_id row1 = Some rid ∧ col_region_id row2 = Some rid
              ∧ (rid, region (location r1)) ∈ rows (regions d1)).
Proof.
  intros Hnd H1 H2 d1.
  destruct (save_sqlite_row data d0 i1 r1 Hnd H1) as (row1 & Hj1 & Ht1 & Hr1 & _).
  destruct (save_sqlite_row data d0 i2 r2 Hnd H2) as (row2 & Hj2 & Ht2 & Hr2 & _).
  exists row1, row2. split; [done|]. split; [done|]. split.
  - intros Heq. rewrite <- Heq in Ht2. split; [congruence|].
    by apply select_id_elem.
  - intros Heq Hne. rewrite <- Heq in Hr2.
    apply truthy_true in Hne. rewrite Hne in Hr1, Hr2.
    destruct Hr1 as (rid1 & Hc1 & Hs1). destruct Hr2 as (rid2 & Hc2 & Hs2).
    exists rid1. split; [done|]. split; [congruence|].
    by apply select_id_elem.
Qed.

Lemma save_sqlite_dedup_witness :
  let data := [(0%nat, Demo.record_full);
               (1%nat, Demo.record_bare "Senior Python Developer");
               (2%nat, Demo.record_bare "Job 2")] in
  NoDup (dict_keys data)
  ∧ ∃ row0 row1 row2,
      jobs (save_sqlite data empty_db) !! 0 = Some row0
      ∧ jobs (save_sqlite data empty_db) !! 1 = Some row1
      ∧ jobs (save_sqlite data empty_db) !! 2 = Some row2
      ∧ col_title_id row0 = col_title_id row1
      ∧ col_region_id row1 = col_region_id row2.
Proof.
  intros data.
  assert (Hnd : NoDup (dict_keys data)).
  { unfold data, dict_keys. simpl.
    repeat (apply NoDup_cons; split;
            [rewrite ?elem_of_cons, ?elem_of_nil; intros H; intuition lia|]).
    apply NoDup_nil; exact I. }
  split; [exact Hnd|].
  destruct (save_sqlite_dedup data empty_db 0 1 Demo.record_full
              (Demo.record_bare "Senior Python Developer") Hnd)
    as (row0 & row1 & Hj0 & Hj1 & Ht & _);
    [unfold data; rewrite !elem_of_cons; auto..|].
  destruct (save_sqlite_dedup data empty_db 1 2
              (Demo.record_bare "Senior Python Developer")
              (Demo.record_bare "Job 2") Hnd)
    as (row1' & row2 & Hj1' & Hj2 & _ & Hr);
    [unfold data; rewrite !elem_of_cons; auto..|].
  exists row0, row1, row2.
  split; [exact Hj0|]. split; [exact Hj1|]. split; [exact Hj2|].
  split; [exact (proj1 (Ht eq_refl))|].
  destruct (Hr eq_refl ltac:(discriminate)) as (rid & Hc1 & Hc2 & _).
  assert (row1' = row1) as -> by congruence.
  congruence.
Defined.

(** C10: the sink strips the title, and only the title.  For every
    record of a run: its fact row carries the id under which the titles
    table holds the stripped title, and carries company, city, date, url and
    content as the record has them; a non-empty region is looked up as it
    is.  Two records whose titles differ only in whitespace around the same
    text get the same title id.  Every title row a run adds holds a
    stripped title, every region row it adds holds a region unchanged. *)
Theorem save_sqlite_strips_title (data : pydict JobRecord) (d0 : db)
    (i1 i2 : nat) (r1 r2 : JobRecord) :
  NoDup (dict_keys data) →
  (i1, r1) ∈ data → (i2, r2) ∈ data →
  let d1 := save_sqlite data d0 in
  ∃ row1 row2,
    jobs d1 !! Z.of_nat i1 = Some row1
    ∧ jobs d1 !! Z.of_nat i2 = Some row2
    ∧ (col_title_id row1, Py.strip (title r1)) ∈ rows (titles d1)
    ∧ select_id (Py.strip (title r1)) (rows (titles d1)) = Some (col_title_id row1)
    ∧ (∀ core w1 w1' w2 w2',
         all_space w1 → all_space w1' → all_space w2 → all_space w2' →
         title r1 = w1 +:+ core +:+ w1' → title r2 = w2 +:+ core +:+ w2' →
         col_title_id row1 = col_title_id row2)
    ∧ col_company row1 = company r1
    ∧ col_ville row1 = ville (location r1)
    ∧ col_date row1 = date r1
    ∧ col_url row1 = url r1
    ∧ col_content row1 = content r1
    ∧ (region (location r1) ≠ "" →
       ∃ rid, col_region_id row1 = Some rid
              ∧ (rid, region (location r1)) ∈ rows (regions d1))
    ∧ (∀ id v, (id, v) ∈ rows (titles d1) →
         (id, v) ∈ rows (titles d0)
         ∨ ∃ idx item, (idx, item) ∈ data ∧ v = Py.strip (title item))
    ∧ (∀ id v, (id, v) ∈ rows (regions d1) →
         (id, v) ∈ rows (regions d0)
         ∨ ∃ idx item, (idx, item) ∈ data ∧ v = region (location item)).
Proof.
  intros Hnd H1 H2 d1.
  destruct (save_sqlite_row data d0 i1 r1 Hnd H1)
    as (row1 & Hj1 & Ht1 & Hr1 & Hco & Hvi & Hda & Hur & Hct).
  destruct (save_sqlite_row data d0 i2 r2 Hnd H2) as (row2 & Hj2 & Ht2 & _).
  destruct (save_sqlite_new_rows data d0) as [Hnt Hnr].
  exists row1, row2.
  split; [done|]. split; [done|]. split; [by apply select_id_elem|].
  split; [done|]. split.
  { intros core w1 w1' w2 w2' Hw1 Hw1' Hw2 Hw2' Ht1' Ht2'.
    rewrite Ht1', strip_surrounded in Ht1 by done.
    rewrite Ht2', strip_surrounded in Ht2 by done.
    fold d1 in Ht1, Ht2. congruence. }
  do 5 (split; [done|]). split; [|by split].
  intros Hne. apply truthy_true in Hne. rewrite Hne in Hr1.
  destruct Hr1 as (rid & Hc & Hs). exists rid. split; [done|].
  by apply select_id_elem.
Qed.

Lemma save_sqlite_strips_title_witness :
  let data := [(0%nat, Demo.record_full);
               (1%nat, Demo.record_bare "  Senior Python Developer ")] in
  NoDup (dict_keys data)
  ∧ ∃ row0 row1,
      jobs (save_sqlite data empty_db) !! 0 = Some row0
      ∧ jobs (save_sqlite data empty_db) !! 1 = Some row1
      ∧ col_title_id row0 = col_title_id row1
      ∧ (col_title_id row1, "Senior Python Developer")
          ∈ rows (titles (save_sqlite data empty_db))
      ∧ col_company row0 = "Payne, Roberts and Davis".
Proof.
  intros data.
  assert (Hnd : NoDup (dict_keys data)).
  { unfold data, dict_keys. simpl.
    repeat (apply NoDup_cons; split;
            [rewrite ?elem_of_cons, ?elem_of_nil; intros H; intuition lia|]).
    apply NoDup_nil; exact I. }
  split; [exact Hnd|].
  destruct (save_sqlite_strips_title data empty_db 0 1 Demo.record_full
              (Demo.record_bare "  Senior Python Developer ") Hnd)
    as (row0 & row1 & Hj0 & Hj1 & _ & _ & Hsame & Hco & _);
    [unfold data; rewrite !elem_of_cons; auto..|].
  destruct (save_sqlite_strips_title data empty_db 1 0
              (Demo.record_bare "  Senior Python Developer ")
              Demo.record_full Hnd)
    as (row1' & row0' & Hj1' & _ & Hin & _);
    [unfold data; rewrite !elem_of_cons; auto..|].
  assert (row1' = row1) as -> by congruence.
  exists row0, row1.
  split; [exact Hj0|]. split; [exact Hj1|]. split; [|split; [exact Hin | exact Hco]].
  exact (Hsame "Senior Python Developer" "" "" "  " " "
           eq_refl eq_refl eq_refl eq_refl eq_refl eq_refl).
Defined.

(* ===================================================================== *)
(** ** Dictionaries *)
(* ===================================================================== *)

Section DictFacts.

Context {V : Type}.
Implicit Types (d : pydict V) (k : nat) (v : V).

Lemma dict_get_set_eq k v d : dict_get k (dict_set k v d) = Some v.
Proof.
  induction d as [|[k' v'] d IH]; simpl.
  - by rewrite Nat.eqb_refl.
  - destruct (Nat.eqb_spec k' k) as [->|Hne]; simpl.
    + by rewrite Nat.eqb_refl.
    + by destruct (Nat.eqb_spec k' k).
Qed.

Lemma dict_get_set_ne k k' v d :
  k ≠ k' → dict_get k' (dict_set k v d) = dict_get k' d.
Proof.
  intros Hne. induction d as [|[k0 v0] d IH]; simpl.
  - by destruct (Nat.eqb_spec k k').
  - destruct (Nat.eqb_spec k0 k) as [->|Hne0]; simpl.
    + by destruct (Nat.eqb_spec k k').
    + by rewrite IH.
Qed.

(** A new key is appended. *)
Lemma dict_set_fresh k v d :
  k ∉ dict_keys d → dict_set k v d = d ++ [(k, v)].
Proof.
  unfold dict_keys. induction d as [|[k' v'] d IH]; simpl; [done|].
  rewrite not_elem_of_cons. intros [Hne Hnin].
  destruct (Nat.eqb_spec k' k); [congruence|]. by rewrite IH.
Qed.

Lemma dict_keys_app d d' : dict_keys (d ++ d') = dict_keys d ++ dict_keys d'.
Proof. unfold dict_keys. apply fmap_app. Qed.

End DictFacts.

(* ===================================================================== *)
(** ** The card locator *)
(* ===================================================================== *)

Lemma parse_cards_fold (f : nat → node → string * node)
    (cs : list node) (acc : pydict (string * node)) (k : nat) :
  (∀ j, j ∈ dict_keys acc → (j < k)%nat) →
  foldl (fun cards '(idx, card) => dict_set idx (f idx card) cards) acc
        (imap (fun i c => ((k + i)%nat, c)) cs)
  = acc ++ imap (fun i c => ((k + i)%nat, f (k + i)%nat c)) cs.
Proof.
  revert acc k. induction cs as [|c cs IH]; intros acc k Hacc; simpl.
  - by rewrite app_nil_r.
  - rewrite Nat.add_0_r.
    rewrite dict_set_fresh by (intros Hin; apply Hacc in Hin; lia).
    rewrite (imap_ext _ (fun i c => ((S k + i)%nat, c)) cs)
      by (intros; simpl; f_equal; lia).
    rewrite IH.
    + rewrite <- app_assoc. simpl. do 2 f_equal.
      apply imap_ext. intros i x _. simpl.
      by replace (k + S i)%nat with (S (k + i)) by lia.
    + intros j. rewrite dict_keys_app, elem_of_app. simpl.
      rewrite list_elem_of_singleton. intros [Hin| ->]; [apply Hacc in Hin|]; lia.
Qed.

(** [parse_cards] lists the cards in document order, each under its
    position and with its title. *)
Lemma parse_cards_spec (html_parser : string → node) (html : string) :
  parse_cards html_parser html
  = imap (fun i card => (i, (card_title i card, card)))
         (select div_card_content (html_parser html)).
Proof.
  unfold parse_cards, enumerate.
  apply (parse_cards_fold (fun i card => (card_title i card, card)) _ [] 0%nat).
  intros j Hj. by apply elem_of_nil in Hj.
Qed.

(* ===================================================================== *)
(** ** The pool and the collection of the results *)
(* ===================================================================== *)

Section CollectFacts.

Implicit Types (order : list nat) (acc : pydict JobRecord).

(** The dictionary a completed loop returns: the record of every future
    that completed, under its own index. *)
Lemma collect_get (futures : list (M (nat * JobRecord))) order acc
    (results : pydict JobRecord) :
  (∀ p t idx r, futures !! p = Some (t, Return (idx, r)) → idx = p) →
  collect futures order acc = Return results →
  ∀ k, dict_get k results
       = if decide (k ∈ order)
         then match futures !! k with
              | Some (_, Return (_, r)) => Some r
              | _ => dict_get k acc
              end
         else dict_get k acc.
Proof.
  intros Hidx. revert acc.
  induction order as [|p order IH]; intros acc Hret k; simpl in Hret.
  - injection Hret as <-. by rewrite decide_False by apply not_elem_of_nil.
  - destruct (futures !! p) as [[t [[idx r]|e]]|] eqn:Hp; [|done|].
    + assert (idx = p) as -> by eauto.
      rewrite (IH _ Hret k).
      destruct (decide (k = p)) as [->|Hne].
      * rewrite (decide_True (P := p ∈ p :: order)) by left.
        rewrite Hp, dict_get_set_eq. by destruct (decide (p ∈ order)).
      * rewrite dict_get_set_ne by done.
        destruct (decide (k ∈ order)) as [Hin|Hnin].
        -- by rewrite decide_True by (by right).
        -- rewrite decide_False; [done|].
           rewrite not_elem_of_cons. done.
    + rewrite (IH _ Hret k).
      destruct (decide (k = p)) as [->|Hne].
      * rewrite (decide_True (P := p ∈ p :: order)) by left.
        rewrite Hp. by destruct (decide (p ∈ order)).
      * destruct (decide (k ∈ order)) as [Hin|Hnin].
        -- by rewrite decide_True by (by right).
        -- rewrite decide_False; [done|].
           rewrite not_elem_of_cons. done.
Qed.

(** The loop raises exactly when one of the futures did. *)
Lemma collect_raise_inv (futures : list (M (nat * JobRecord))) order acc
    (e : exn) :
  collect futures order acc = Raise e →
  ∃ p t, p ∈ order ∧ futures !! p = Some (t, Raise e).
Proof.
  revert acc. induction order as [|p order IH]; intros acc Hr; simpl in Hr;
    [done|].
  destruct (futures !! p) as [[t [[idx r]|e']]|] eqn:Hp.
  - destruct (IH _ Hr) as (q & t' & ? & ?). exists q, t'. split; [by right|done].
  - injection Hr as ->. exists p, t. split; [left | done].
  - destruct (IH _ Hr) as (q & t' & ? & ?). exists q, t'. split; [by right|done].
Qed.

Lemma collect_raises (futures : list (M (nat * JobRecord))) order acc
    (p : nat) (t : list event) (e : exn) :
  p ∈ order → futures !! p = Some (t, Raise e) →
  ∃ e', collect futures order acc = Raise e'.
Proof.
  revert acc. induction order as [|q order IH]; intros acc Hin Hp.
  - by apply elem_of_nil in Hin.
  - simpl. destruct (decide (q = p)) as [->|Hne].
    + rewrite Hp. eauto.
    + apply elem_of_cons in Hin as [->|Hin]; [done|].
      destruct (futures !! q) as [[t' [[idx r]|e']]|]; eauto.
Qed.

(** When every future of the order completed under its own position, the
    loop returns, and the keys are the positions in the order of the
    loop. *)
Lemma collect_returns (futures : list (M (nat * JobRecord))) order acc :
  NoDup order →
  (∀ p, p ∈ order → p ∉ dict_keys acc) →
  (∀ p, p ∈ order → ∃ t r, futures !! p = Some (t, Return (p, r))) →
  ∃ results, collect futures order acc = Return results
             ∧ dict_keys results = dict_keys acc ++ order.
Proof.
  revert acc. induction order as [|p order IH]; intros acc Hnd Hfresh Hall.
  - exists acc. by rewrite app_nil_r.
  - apply NoDup_cons in Hnd as [Hp Hnd]. simpl.
    destruct (Hall p) as (t & r & Hfut); [left|]. rewrite Hfut.
    rewrite dict_set_fresh by (apply Hfresh; left).
    destruct (IH (acc ++ [(p, r)])) as (results & Hres & Hkeys); [done|..].
    + intros q Hq. rewrite dict_keys_app, elem_of_app. simpl.
      rewrite list_elem_of_singleton. intros [Hin| ->]; [|done].
      revert Hin. apply Hfresh. by right.
    + intros q Hq. apply Hall. by right.
    + exists results. split; [done|].
      rewrite Hkeys, dict_keys_app, <- app_assoc. done.
Qed.

(** Two loops over the same futures, up to their traces, in two orders
    that list the same positions, agree. *)
Lemma collect_same_mapping (futures1 futures2 : list (M (nat * JobRecord)))
    order1 order2 :
  (∀ p, outcome <$> futures1 !! p = outcome <$> futures2 !! p) →
  (∀ p, p ∈ order1 ↔ p ∈ order2) →
  (∀ p t idx r, futures1 !! p = Some (t, Return (idx, r)) → idx = p) →
  same_mapping (collect futures1 order1 []) (collect futures2 order2 []).
Proof.
  intros Hout Hord Hidx1.
  assert (Hidx2 : ∀ p t idx r,
             futures2 !! p = Some (t, Return (idx, r)) → idx = p).
  { intros p t idx r Hp. specialize (Hout p). rewrite Hp in Hout.
    destruct (futures1 !! p) as [[t1 o1]|] eqn:Hp1; [|done].
    simpl in Hout. injection Hout as ->. eauto. }
  unfold same_mapping.
  destruct (collect futures1 order1 []) as [d1|e1] eqn:H1;
    destruct (collect futures2 order2 []) as [d2|e2] eqn:H2; [| | |done].
  - intros k.
    rewrite (collect_get _ _ _ _ Hidx1 H1 k), (collect_get _ _ _ _ Hidx2 H2 k).
    specialize (Hout k).
    destruct (decide (k ∈ order1)) as [Hin|Hnin].
    + rewrite decide_True by (by apply Hord).
      destruct (futures1 !! k) as [[t1 o1]|], (futures2 !! k) as [[t2 o2]|];
        simpl in Hout; try done.
      injection Hout as ->. done.
    + rewrite decide_False; [done|]. by rewrite <- Hord.
  - apply collect_raise_inv in H2 as (p & t & Hin & Hp).
    specialize (Hout p). rewrite Hp in Hout.
    destruct (futures1 !! p) as [[t1 o1]|] eqn:Hp1; [|done].
    simpl in Hout. injection Hout as ->.
    destruct (collect_raises futures1 order1 [] p t1 e2) as [e' He'];
      [by apply Hord | done | congruence].
  - apply collect_raise_inv in H1 as (p & t & Hin & Hp).
    specialize (Hout p). rewrite Hp in Hout.
    destruct (futures2 !! p) as [[t2 o2]|] eqn:Hp2; [|done].
    simpl in Hout. injection Hout as <-.
    destruct (collect_raises futures2 order2 [] p t2 e1) as [e' He'];
      [by apply Hord | done | congruence].
Qed.

End CollectFacts.

(* ===================================================================== *)
(** ** The orchestrator *)
(* ===================================================================== *)

Section ScrapeFacts.

Variable web : string → http_outcome.
Variable html_parser : string → node.

(** The outcome of an extraction does not depend on the pool thread that
    runs it. *)
Lemma extract_info_any_thread (w w' idx : nat) (t : string) (card : node) :
  thread_number_fits w → thread_number_fits w' →
  outcome (extract_info web html_parser (pool_thread_name w) idx t card)
  = outcome (extract_info web html_parser (pool_thread_name w') idx t card).
Proof.
  intros Hw Hw'. rewrite !extract_info_outcome. unfold detail_fetch.
  destruct (negb _); [|done]. by rewrite !fetch_html_pool.
Qed.

Lemma extract_info_index (th : string) (idx : nat) (t : string) (card : node)
    (i : nat) (r : JobRecord) :
  outcome (extract_info web html_parser th idx t card) = Return (i, r) →
  i = idx.
Proof.
  rewrite extract_info_outcome.
  destruct (href_missing card); [done|].
  destruct (Py.partition "," (location_text card)) as [[v r']|]; [|done].
  destruct (outcome (detail_fetch web th card)); [|done].
  by intros [= <- _].
Qed.

(** A well-formed card whose detail page is served is extracted. *)
Lemma extract_info_returns (w idx : nat) (t : string) (card : node) :
  thread_number_fits w →
  well_formed_card card → detail_fetch_succeeds web card →
  ∃ r, outcome (extract_info web html_parser (pool_thread_name w) idx t card)
       = Return (idx, r).
Proof.
  intros Hw [Hhref Hcomma] Hdetail. rewrite extract_info_outcome, Hhref.
  destruct (Py.partition "," (location_text card)) as [[v r']|] eqn:Hp.
  - unfold detail_fetch.
    destruct (String.eqb_spec (card_url card) "NC") as [Heq|Hne]; simpl;
      [eauto|].
    rewrite fetch_html_pool by done. destruct (Hdetail Hne) as [body ->]. eauto.
  - apply partition_none_iff in Hp. congruence.
Qed.

(** How a run ends: the listing fetch, the check of the pool size, the
    loop over the futures of the cards. *)
Lemma scrape_jobs_outcome (workers : Z) (sched : schedule) :
  outcome (scrape_jobs web html_parser workers sched)
  = match web URL with
    | TransportFailure => Raise RequestException
    | Response status_code html =>
        if (status_code =? 200) && Py.truthy html then
          if workers <=? 0 then Raise ValueError
          else collect
                 (imap (fun p card =>
                          extract_info web html_parser
                            (pool_thread_name (worker_of sched p)) p
                            (card_title p card) card)
                    (select div_card_content (html_parser html)))
                 (completion sched) []
        else Return []
    end.
Proof.
  unfold scrape_jobs. rewrite outcome_bind, fetch_html_main.
  destruct (web URL) as [st html|]; [|done].
  destruct (st =? 200); simpl; [|done].
  destruct (Py.truthy html); simpl; [|done].
  destruct (workers <=? 0); [done|].
  rewrite parse_cards_spec. unfold run_pool, outcome. simpl. f_equal.
  apply list_eq. intros p. rewrite !list_lookup_imap.
  by destruct (_ !! p).
Qed.

(** Two runs on pools of positive sizes agree, whatever the schedules, as
    long as [int] reads back the number of every thread of the pools. *)
Lemma scrape_jobs_any_pool (workers1 workers2 : Z) (s1 s2 : schedule) :
  let n := length (listing_cards web html_parser) in
  0 < workers1 → workers1 ≤ 10 ^ Z.of_nat Py.max_str_digits →
  0 < workers2 → workers2 ≤ 10 ^ Z.of_nat Py.max_str_digits →
  valid_schedule workers1 n s1 → valid_schedule workers2 n s2 →
  same_mapping (outcome (scrape_jobs web html_parser workers1 s1))
               (outcome (scrape_jobs web html_parser workers2 s2)).
Proof.
  intros n Hw1 Hb1 Hw2 Hb2 [Hin1 Hperm1] [Hin2 Hperm2].
  rewrite !scrape_jobs_outcome.
  assert (Hn : ∀ st html, web URL = Response st html →
            (st =? 200) && Py.truthy html = true →
            n = length (select div_card_content (html_parser html))).
  { intros st html Hweb Hok. subst n. unfold listing_cards.
    by rewrite Hweb, Hok. }
  destruct (web URL) as [st html|] eqn:Hweb; [|done].
  destruct ((st =? 200) && Py.truthy html) eqn:Hok; [|done].
  specialize (Hn st html eq_refl Hok).
  rewrite !(proj2 (Z.leb_gt _ _)) by done.
  apply collect_same_mapping.
  - intros p. rewrite !list_lookup_imap.
    destruct (_ !! p) eqn:Hp; [|done]. simpl. f_equal.
    apply lookup_lt_Some in Hp. rewrite <- Hn in Hp.
    apply extract_info_any_thread.
    + eapply thread_number_fits_below; [exact Hb1 | by apply Hin1].
    + eapply thread_number_fits_below; [exact Hb2 | by apply Hin2].
  - intros p. by rewrite Hperm1, Hperm2.
  - intros p t idx r. rewrite list_lookup_imap.
    destruct (_ !! p) as [card|]; [|done]. simpl. intros [= Hrun].
    eapply extract_info_index. unfold outcome. by rewrite Hrun.
Qed.

End ScrapeFacts.

(** C9: for a fixed network and parser, a run on a pool of one thread
    and a run on a pool of eight threads, under any schedules of the pool,
    end alike: both raise, or both return dictionaries that map every index
    to the same record. *)
Theorem scrape_jobs_pool_size (web : string → http_outcome)
    (html_parser : string → node) (s1 s8 : schedule) :
  let n := length (listing_cards web html_parser) in
  valid_schedule 1 n s1 → valid_schedule 8 n s8 →
  same_mapping (outcome (scrape_jobs web html_parser 1 s1))
               (outcome (scrape_jobs web html_parser 8 s8)).
Proof.
  intros n H1 H8. pose proof pool_of_eight_fits as Hfits.
  apply scrape_jobs_any_pool; [lia | | lia | | done | done].
  - by etrans; [|exact Hfits].
  - exact Hfits.
Qed.

Lemma in_order_valid (workers : Z) (n : nat) :
  0 < workers → valid_schedule workers n (Demo.in_order n).
Proof. intros Hw. split; [intros p _; simpl; lia | done]. Qed.

Lemma reversed_valid (workers n : nat) :
  (0 < workers)%nat → valid_schedule (Z.of_nat workers) n (Demo.reversed workers n).
Proof.
  intros Hw. split.
  - intros p _. simpl. apply Nat2Z.inj_lt. apply Nat.mod_upper_bound. lia.
  - simpl. apply reverse_Permutation.
Qed.

Lemma scrape_jobs_pool_size_witness :
  valid_schedule 1 2 (Demo.in_order 2)
  ∧ valid_schedule 8 2 (Demo.reversed 8 2)
  ∧ same_mapping
      (outcome (scrape_jobs Demo.web Demo.html_parser 1 (Demo.in_order 2)))
      (outcome (scrape_jobs Demo.web Demo.html_parser 8 (Demo.reversed 8 2))).
Proof.
  assert (H1 : valid_schedule 1 2 (Demo.in_order 2))
    by (apply in_order_valid; lia).
  assert (H8 : valid_schedule 8 2 (Demo.reversed 8 2))
    by (apply (reversed_valid 8 2); lia).
  split; [exact H1|]. split; [exact H8|].
  exact (scrape_jobs_pool_size Demo.web Demo.html_parser _ _ H1 H8).
Defined.

(** A card whose extraction raises makes the run raise. *)
Lemma scrape_jobs_raises (web : string → http_outcome)
    (html_parser : string → node) (workers : Z) (sched : schedule)
    (i : nat) (card : node) (e : exn) :
  let cards := listing_cards web html_parser in
  (∃ html, web URL = Response 200 html) →
  0 < workers →
  valid_schedule workers (length cards) sched →
  cards !! i = Some card →
  outcome (extract_info web html_parser (pool_thread_name (worker_of sched i)) i
             (card_title i card) card) = Raise e →
  ∃ e', outcome (scrape_jobs web html_parser workers sched) = Raise e'.
Proof.
  intros cards [html Hweb] Hw [_ Hperm] Hcard Hfail.
  rewrite scrape_jobs_outcome, Hweb. simpl.
  assert (Hc : (if Py.truthy html
                then select div_card_content (html_parser html) else [])
               = cards).
  { subst cards. unfold listing_cards. by rewrite Hweb. }
  destruct (Py.truthy html); [|by rewrite <- Hc in Hcard].
  rewrite (proj2 (Z.leb_gt _ _)) by done. rewrite Hc.
  set (futures := imap _ cards).
  assert (Hin : i ∈ completion sched).
  { rewrite Hperm, elem_of_seq. apply lookup_lt_Some in Hcard. lia. }
  assert (Hi : ∃ tr, futures !! i = Some (tr, Raise e)).
  { subst futures. rewrite list_lookup_imap, Hcard. simpl.
    destruct (extract_info _ _ _ _ _ _) as [tr o]. simpl in Hfail. subst o.
    by eexists. }
  destruct Hi as [tr Hi].
  exact (collect_raises futures (completion sched) [] i tr e Hin Hi).
Qed.

(** C1: the code breaks the claim.  The listing page is fetched with
    status 200 and the locator finds its cards, but one of them has a
    location text without a comma, or a second footer link without an
    [href].  Then, whatever the detail fetches do (so also when every one
    of them succeeds), under every schedule of a pool of positive size
    [scrape_jobs] raises: the [IndexError] or [KeyError] of that card's
    extraction is not caught, and no dictionary, so none with one entry per
    card, is returned. *)
Theorem scrape_jobs_faulty_card_raises (web : string → http_outcome)
    (html_parser : string → node) (workers : Z) (sched : schedule)
    (card : node) :
  let cards := listing_cards web html_parser in
  (∃ html, web URL = Response 200 html) →
  0 < workers →
  valid_schedule workers (length cards) sched →
  card ∈ cards →
  Py.contains "," (location_text card) = false ∨ href_missing card = true →
  ∃ e, outcome (scrape_jobs web html_parser workers sched) = Raise e.
Proof.
  intros cards Hweb Hw Hsched Hcard Hfault.
  apply list_elem_of_lookup_1 in Hcard as [i Hi].
  apply (scrape_jobs_raises web html_parser workers sched i card
           (if href_missing card then KeyError else IndexError));
    [done..|].
  rewrite extract_info_outcome.
  destruct (href_missing card); [done|].
  destruct Hfault as [Hcomma|]; [|done].
  apply partition_none_iff in Hcomma. by rewrite Hcomma.
Qed.

(** The failing input of C1: two cards, every fetch answered with status
    200, the second card located at "Remote".  The run raises
    [IndexError]. *)
Lemma scrape_jobs_faulty_card_raises_witness :
  (∃ html, Demo.web_remote URL = Response 200 html)
  ∧ listing_cards Demo.web_remote Demo.html_parser
    = [Demo.card_full; Demo.card_remote]
  ∧ (∀ card, card ∈ listing_cards Demo.web_remote Demo.html_parser →
       detail_fetch_succeeds Demo.web_remote card)
  ∧ valid_schedule 5 (length (listing_cards Demo.web_remote Demo.html_parser))
      (Demo.in_order 2)
  ∧ Py.contains "," (location_text Demo.card_remote) = false
  ∧ (∃ e, outcome (scrape_jobs Demo.web_remote Demo.html_parser 5
                     (Demo.in_order 2)) = Raise e)
  ∧ outcome (scrape_jobs Demo.web_remote Demo.html_parser 5 (Demo.in_order 2))
    = Raise IndexError.
Proof.
  assert (Hfetch : ∃ html, Demo.web_remote URL = Response 200 html)
    by (by exists "<remote>").
  assert (Hsched : valid_schedule 5
                     (length (listing_cards Demo.web_remote Demo.html_parser))
                     (Demo.in_order 2))
    by (apply in_order_valid; lia).
  assert (Hin : Demo.card_remote
                ∈ listing_cards Demo.web_remote Demo.html_parser).
  { change (listing_cards _ _) with [Demo.card_full; Demo.card_remote].
    rewrite !elem_of_cons. by right; left. }
  split; [exact Hfetch|]. split; [reflexivity|]. split; [|split; [exact Hsched|]].
  - intros card. change (listing_cards _ _) with [Demo.card_full; Demo.card_remote].
    rewrite !elem_of_cons, elem_of_nil. intros [-> | [-> | []]].
    + intros _. by exists "<detail>".
    + by intros Hurl.
  - split; [reflexivity|]. split; [|reflexivity].
    exact (scrape_jobs_faulty_card_raises Demo.web_remote Demo.html_parser 5
             (Demo.in_order 2) Demo.card_remote Hfetch ltac:(lia) Hsched Hin
             (or_introl eq_refl)).
Defined.

(* ===================================================================== *)
(** * Further properties of the code *)
(* ===================================================================== *)

(* ===================================================================== *)
(** ** The normalized sink as a whole *)
(* ===================================================================== *)

Lemma row_of_item_functional (d : db) (item : JobRecord) (row row' : job_row) :
  row_of_item d item row → row_of_item d item row' → row = row'.
Proof.
  intros (Ht & Hr & Hco & Hvi & Hda & Hur & Hct)
         (Ht' & Hr' & Hco' & Hvi' & Hda' & Hur' & Hct').
  destruct row, row'. simpl in *.
  assert (col_region_id0 = col_region_id1) as ->.
  { destruct (Py.truthy _); [|congruence].
    destruct Hr as (rid & -> & Hs), Hr' as (rid' & -> & Hs'). congruence. }
  f_equal; congruence.
Qed.

(** A turn of the loop for a record whose fact row is already stored
    changes nothing. *)
Lemma save_item_fixed (idx : nat) (item : JobRecord) (d : db) (row : job_row) :
  jobs d !! Z.of_nat idx = Some row → row_of_item d item row →
  save_item idx item d = d.
Proof.
  intros Hj Hrow.
  destruct (save_item_jobs idx item d) as (row' & Hjobs & Hrow').
  pose proof (save_item_titles idx item d) as Ht.
  pose proof (save_item_regions idx item d) as Hr.
  destruct Hrow as (Hst & Hsr & Hrest).
  rewrite (lookup_or_insert_known _ _ _ Hst) in Ht. simpl in Ht.
  assert (Hr2 : regions (save_item idx item d) = regions d).
  { rewrite Hr. destruct (Py.truthy _); [|done].
    destruct Hsr as (rid & _ & Hs). by rewrite (lookup_or_insert_known _ _ _ Hs). }
  assert (row' = row) as ->.
  { eapply row_of_item_functional; [exact Hrow'|].
    unfold row_of_item. rewrite Ht, Hr2. done. }
  rewrite insert_id in Hjobs by done.
  destruct (save_item idx item d), d. simpl in *. congruence.
Qed.

Lemma save_sqlite_fixed (data : pydict JobRecord) (d : db) :
  (∀ idx item, (idx, item) ∈ data →
     ∃ row, jobs d !! Z.of_nat idx = Some row ∧ row_of_item d item row) →
  save_sqlite data d = d.
Proof.
  induction data as [|[k it] data IH]; intros Hall; [done|].
  rewrite save_sqlite_cons.
  destruct (Hall k it) as (row & Hj & Hrow); [left|].
  rewrite (save_item_fixed k it d row Hj Hrow).
  apply IH. intros idx item Hin. apply Hall. by right.
Qed.

(** X1: a second run of the sink with the same dictionary leaves the whole
    store as the first run left it: the reference tables with their
    counters, and every fact row with every column. *)
Theorem save_sqlite_idempotent (data : pydict JobRecord) (d0 : db) :
  NoDup (dict_keys data) →
  save_sqlite data (save_sqlite data d0) = save_sqlite data d0.
Proof.
  intros Hnd. apply save_sqlite_fixed.
  intros idx item Hin. by apply save_sqlite_row.
Qed.

(** Concrete keys are distinct. *)
Ltac distinct_keys :=
  unfold dict_keys; simpl;
  repeat (apply NoDup_cons; split;
          [rewrite ?elem_of_cons, ?elem_of_nil; intros ?; intuition lia|]);
  apply NoDup_nil; exact I.

Lemma save_sqlite_idempotent_witness :
  let data := [(0%nat, Demo.record_full);
               (1%nat, Demo.record_bare " Senior Python Developer ")] in
  NoDup (dict_keys data)
  ∧ save_sqlite data (save_sqlite data empty_db) = save_sqlite data empty_db.
Proof.
  intros data.
  assert (Hnd : NoDup (dict_keys data)) by (unfold data; distinct_keys).
  split; [exact Hnd|]. exact (save_sqlite_idempotent data empty_db Hnd).
Defined.

(** X2: the sink keeps the reference tables free of duplicates: if no two
    rows of [titles] share an id or a value before a run, none do after
    it, and the same for [regions]. *)
Theorem save_sqlite_keeps_unique (data : pydict JobRecord) (d0 : db) :
  table_unique (titles d0) → table_unique (regions d0) →
  table_unique (titles (save_sqlite data d0))
  ∧ table_unique (regions (save_sqlite data d0)).
Proof. apply save_sqlite_unique. Qed.

Lemma save_sqlite_keeps_unique_witness :
  let data := [(0%nat, Demo.record_full);
               (1%nat, Demo.record_bare "Senior Python Developer");
               (2%nat, Demo.record_bare "Job 2")] in
  table_unique (titles empty_db) ∧ table_unique (regions empty_db)
  ∧ table_unique (titles (save_sqlite data empty_db))
  ∧ table_unique (regions (save_sqlite data empty_db)).
Proof.
  intros data.
  assert (Hu : table_unique empty_table) by (split; apply NoDup_nil; exact I).
  split; [exact Hu|]. split; [exact Hu|].
  exact (save_sqlite_keeps_unique data empty_db Hu Hu).
Defined.

(** X3: on a store whose reference tables hold no id and no value twice,
    two records of a run whose stripped titles differ get different title
    ids. *)
Theorem save_sqlite_separates_titles (data : pydict JobRecord) (d0 : db)
    (i1 i2 : nat) (r1 r2 : JobRecord) (row1 row2 : job_row) :
  table_unique (titles d0) → table_unique (regions d0) →
  NoDup (dict_keys data) →
  (i1, r1) ∈ data → (i2, r2) ∈ data →
  jobs (save_sqlite data d0) !! Z.of_nat i1 = Some row1 →
  jobs (save_sqlite data d0) !! Z.of_nat i2 = Some row2 →
  Py.strip (title r1) ≠ Py.strip (title r2) →
  col_title_id row1 ≠ col_title_id row2.
Proof. apply save_sqlite_distinct_titles. Qed.

Lemma save_sqlite_separates_titles_witness :
  let data := [(0%nat, Demo.record_full); (1%nat, Demo.record_bare "Job 1")] in
  ∃ row1 row2,
    jobs (save_sqlite data empty_db) !! 0 = Some row1
    ∧ jobs (save_sqlite data empty_db) !! 1 = Some row2
    ∧ col_title_id row1 ≠ col_title_id row2.
Proof.
  intros data.
  assert (Hu : table_unique empty_table) by (split; apply NoDup_nil; exact I).
  assert (Hnd : NoDup (dict_keys data)) by (unfold data; distinct_keys).
  eexists _, _. split; [reflexivity|]. split; [reflexivity|].
  apply (save_sqlite_separates_titles data empty_db 0 1 Demo.record_full
           (Demo.record_bare "Job 1") _ _ Hu Hu Hnd);
    [ unfold data; rewrite !elem_of_cons; auto
    | unfold data; rewrite !elem_of_cons; auto
    | reflexivity | reflexivity | discriminate ].
Defined.

(** *** Reference rows are only appended *)

Lemma max_rowid_app (rs rs' : list (Z * string)) :
  max_rowid (rs ++ rs') = Z.max (max_rowid rs) (max_rowid rs').
Proof.
  induction rs as [|[id v] rs IH]; simpl.
  - pose proof (max_rowid_ge rs'). assert (0 ≤ max_rowid rs'); [|lia].
    clear. induction rs' as [|[id v] rs' IH]; simpl; lia.
  - rewrite IH. lia.
Qed.

Lemma max_rowid_bound (rs : list (Z * string)) (id : Z) :
  id ∈ rs.*1 → id ≤ max_rowid rs.
Proof.
  intros ([id' v] & -> & Hin)%list_elem_of_fmap. by eapply max_rowid_ge.
Qed.

Global Instance table_grows_preorder : PreOrder table_grows.
Proof.
  split.
  - intros t. exists []. rewrite app_nil_r.
    split; [done|]. split; [done|]. split; [constructor|].
    by intros id ?%elem_of_nil.
  - intros t1 t2 t3 (a1 & Hr1 & Hh1 & Hs1 & Hb1) (a2 & Hr2 & Hh2 & Hs2 & Hb2).
    exists (a1 ++ a2). split; [by rewrite Hr2, Hr1, app_assoc|].
    split; [lia|]. split.
    + rewrite fmap_app. apply StronglySorted_app_2; [|done..].
      intros x y Hx Hy. apply Hb2 in Hy.
      assert (x ≤ max_rowid (rows t2)); [|unfold high_water in *; lia].
      apply max_rowid_bound. rewrite Hr1, fmap_app, elem_of_app. by right.
    + intros id. rewrite fmap_app, elem_of_app.
      intros [Hin|Hin]; [by apply Hb1 | apply Hb2 in Hin; lia].
Qed.

Lemma lookup_or_insert_grows (v : string) (t : ref_table) :
  table_grows t (lookup_or_insert v t).2.
Proof.
  unfold lookup_or_insert. destruct (select_id v (rows t)); [reflexivity|].
  exists [(high_water t + 1, v)]. simpl. split; [done|].
  unfold high_water. simpl. rewrite max_rowid_app. simpl.
  split; [lia|]. split.
  - repeat constructor.
  - intros id ->%list_elem_of_singleton. lia.
Qed.

(** X4: a run never replaces or removes a reference row: the rows of
    [titles] and [regions] before the run are still there, in place, and
    the rows the run appends carry increasing ids, each above every id the
    table has held. *)
Theorem save_sqlite_appends (data : pydict JobRecord) (d0 : db) :
  table_grows (titles d0) (titles (save_sqlite data d0))
  ∧ table_grows (regions d0) (regions (save_sqlite data d0)).
Proof.
  revert d0. induction data as [|[k it] data IH]; intros d0.
  - split; reflexivity.
  - rewrite save_sqlite_cons. destruct (IH (save_item k it d0)) as [IHt IHr].
    split.
    + etrans; [|exact IHt]. rewrite save_item_titles.
      apply lookup_or_insert_grows.
    + etrans; [|exact IHr]. rewrite save_item_regions.
      destruct (Py.truthy _); [apply lookup_or_insert_grows | reflexivity].
Qed.

(** *** What the tables hold after a run *)

Lemma select_id_Some_iff (v : string) (rs : list (Z * string)) :
  is_Some (select_id v rs) ↔ v ∈ rs.*2.
Proof.
  split.
  - intros [id Hid]. apply select_id_elem in Hid.
    apply list_elem_of_fmap. by exists (id, v).
  - intros Hin. destruct (select_id v rs) eqn:Hsel; [by eexists|].
    by apply select_id_None in Hsel.
Qed.

Lemma save_sqlite_region_rows (data : pydict JobRecord) (d : db) (id : Z)
    (v : string) :
  (id, v) ∈ rows (regions (save_sqlite data d)) →
  (id, v) ∈ rows (regions d)
  ∨ ∃ idx item, (idx, item) ∈ data ∧ v = region (location item) ∧ v ≠ "".
Proof.
  revert d. induction data as [|[k it] data IH]; intros d Hin; [by left|].
  rewrite save_sqlite_cons in Hin.
  apply IH in Hin as [Hin|(idx & item & ? & ? & ?)].
  - rewrite save_item_regions in Hin.
    destruct (Py.truthy _) eqn:Htr; [|by left].
    apply lookup_or_insert_rows in Hin as [?| ->]; [by left|].
    right. exists k, it. split; [left|]. split; [done|].
    by apply truthy_true.
  - right. exists idx, item. split; [by right|done].
Qed.

(** X5: after a run the values of [titles] are exactly those it held
    before and the stripped titles of the records of the run; the values
    of [regions] are exactly those it held before and the non-empty
    regions of the records.  An empty region is never stored. *)
Theorem save_sqlite_values (data : pydict JobRecord) (d0 : db) (v : string) :
  let d1 := save_sqlite data d0 in
  (v ∈ (rows (titles d1)).*2 ↔
     v ∈ (rows (titles d0)).*2
     ∨ ∃ idx item, (idx, item) ∈ data ∧ v = Py.strip (title item))
  ∧ (v ∈ (rows (regions d1)).*2 ↔
       v ∈ (rows (regions d0)).*2
       ∨ ∃ idx item, (idx, item) ∈ data ∧ v = region (location item) ∧ v ≠ "").
Proof.
  intros d1. destruct (save_sqlite_extends data d0) as [Het Her].
  destruct (save_sqlite_new_rows data d0) as [Hnt _]. split; split.
  - intros ([id w] & -> & Hin)%list_elem_of_fmap. simpl.
    apply Hnt in Hin as [Hin|?]; [|by right].
    left. apply list_elem_of_fmap. by exists (id, w).
  - intros [Hin|(idx & item & Hin & ->)]; apply select_id_Some_iff.
    + apply select_id_Some_iff in Hin as [id Hid]. exists id. by apply Het.
    + by apply (save_sqlite_covers data d0 idx).
  - intros ([id w] & -> & Hin)%list_elem_of_fmap. simpl.
    apply save_sqlite_region_rows in Hin as [Hin|?]; [|by right].
    left. apply list_elem_of_fmap. by exists (id, w).
  - intros [Hin|(idx & item & Hin & -> & Hne)]; apply select_id_Some_iff.
    + apply select_id_Some_iff in Hin as [id Hid]. exists id. by apply Her.
    + apply (save_sqlite_covers data d0 idx); [done|]. by apply truthy_true.
Qed.

(** X6: a run writes the fact rows of its own keys only: a row of [jobs]
    under a key that is no index of the dictionary is left as it was. *)
Theorem save_sqlite_other_rows (data : pydict JobRecord) (d0 : db) (k : Z) :
  (∀ idx, idx ∈ dict_keys data → k ≠ Z.of_nat idx) →
  jobs (save_sqlite data d0) !! k = jobs d0 !! k.
Proof.
  revert d0. induction data as [|[k' it] data IH]; intros d0 Hk; [done|].
  rewrite save_sqlite_cons, IH.
  - destruct (save_item_jobs k' it d0) as (row & -> & _).
    apply lookup_insert_ne. intros Heq. apply (Hk k'); [left | done].
  - intros idx Hin. apply Hk. by right.
Qed.

Lemma save_sqlite_other_rows_witness :
  let d0 := save_sqlite [(7%nat, Demo.record_full)] empty_db in
  let data := [(0%nat, Demo.record_bare "Job 0")] in
  (∀ idx, idx ∈ dict_keys data → 7 ≠ Z.of_nat idx)
  ∧ jobs (save_sqlite data d0) !! 7 = jobs d0 !! 7.
Proof.
  intros d0 data.
  assert (Hk : ∀ idx, idx ∈ dict_keys data → 7 ≠ Z.of_nat idx).
  { intros idx. unfold data, dict_keys. simpl.
    rewrite elem_of_cons, elem_of_nil. intros [-> | []]. lia. }
  split; [exact Hk|]. exact (save_sqlite_other_rows data d0 7 Hk).
Defined.

Lemma table_grows_ids (t t' : ref_table) (id : Z) :
  table_grows t t' → id ∈ (rows t).*1 → id ∈ (rows t').*1.
Proof.
  intros (added & -> & _) Hin. rewrite fmap_app, elem_of_app. by left.
Qed.

Lemma save_item_references (idx : nat) (item : JobRecord) (d : db) :
  references_valid d → references_valid (save_item idx item d).
Proof.
  intros Hd k row.
  destruct (save_item_jobs idx item d) as (row' & -> & Hrow).
  pose proof (save_item_titles idx item d) as Ht.
  pose proof (save_item_regions idx item d) as Hr.
  assert (Hgt : table_grows (titles d) (titles (save_item idx item d)))
    by (rewrite Ht; apply lookup_or_insert_grows).
  assert (Hgr : table_grows (regions d) (regions (save_item idx item d))).
  { rewrite Hr. destruct (Py.truthy _);
      [apply lookup_or_insert_grows | reflexivity]. }
  destruct (decide (Z.of_nat idx = k)) as [<-|Hne].
  - rewrite lookup_insert_eq. intros [= <-].
    destruct Hrow as (Hst & Hsr & _). split.
    + apply select_id_elem in Hst. apply list_elem_of_fmap.
      by exists (col_title_id row', Py.strip (title item)).
    + intros rid Hrid. destruct (Py.truthy _); [|congruence].
      destruct Hsr as (rid' & Hc & Hs). assert (rid' = rid) as -> by congruence.
      apply select_id_elem in Hs. apply list_elem_of_fmap.
      by exists (rid, region (location item)).
  - rewrite lookup_insert_ne by done. intros Hrow'.
    destruct (Hd k row Hrow') as [Htid Hrid]. split.
    + by eapply table_grows_ids.
    + intros rid ?. eapply table_grows_ids; eauto.
Qed.

(** X7: the sink keeps the references of the fact rows valid: if every
    fact row refers to an existing title row and to an existing region row
    (or to none) before a run, so does every fact row after it.  SQLite
    does not check these references itself. *)
Theorem save_sqlite_references (data : pydict JobRecord) (d0 : db) :
  references_valid d0 → references_valid (save_sqlite data d0).
Proof.
  revert d0. induction data as [|[k it] data IH]; intros d0 Hd; [done|].
  rewrite save_sqlite_cons. apply IH. by apply save_item_references.
Qed.

Lemma save_sqlite_references_witness :
  let data := [(0%nat, Demo.record_full); (1%nat, Demo.record_bare "Job 1")] in
  references_valid empty_db ∧ references_valid (save_sqlite data empty_db).
Proof.
  intros data.
  assert (H0 : references_valid empty_db).
  { intros k row Hk. simpl in Hk. by rewrite lookup_empty in Hk. }
  split; [exact H0|]. exact (save_sqlite_references data empty_db H0).
Defined.

(* ===================================================================== *)
(** ** More on the page fetcher *)
(* ===================================================================== *)

Lemma prints_app (t1 t2 : list event) : prints (t1 ++ t2) = prints t1 ++ prints t2.
Proof. apply List.filter_app. Qed.

(** X8: a label with something other than a number after its first
    underscore makes [fetch_html] fail on the very pages it fetched: on
    status 200 it raises [ValueError], after the request and without
    printing; on any other status the label is not looked at and the empty
    string is returned. *)
Theorem fetch_html_unnumbered_label (web : string → http_outcome)
    (url s a thrd : string) (status_code : Z) (text : string) :
  Py.partition "_" s = Some (a, thrd) → thrd ≠ "" → Py.int thrd = None →
  web url = Response status_code text →
  fetch_html web url (Some s)
  = ([EvGet url], if status_code =? 200 then Raise ValueError else Return "").
Proof.
  intros Hpart Hne Hint Hweb.
  unfold fetch_html, requests_get. rewrite Hweb. cbn [bind emit ret app].
  destruct (status_code =? 200); [|done].
  rewrite thread_suffix_partition, Hpart. cbn [bind ret app].
  apply truthy_true in Hne. rewrite Hne.
  unfold int_or_raise. by rewrite Hint.
Qed.

Lemma fetch_html_unnumbered_label_witness :
  Py.partition "_" "worker_x" = Some ("worker", "x")
  ∧ Py.int "x" = None
  ∧ fetch_html Demo.web URL (Some "worker_x") = ([EvGet URL], Raise ValueError)
  ∧ fetch_html Demo.web "https://example.org/" (Some "worker_x")
    = ([EvGet "https://example.org/"], Return "").
Proof.
  split; [reflexivity|]. split; [reflexivity|]. split.
  - exact (fetch_html_unnumbered_label Demo.web URL "worker_x" "worker" "x"
             200 "<listing>" eq_refl ltac:(discriminate) eq_refl eq_refl).
  - exact (fetch_html_unnumbered_label Demo.web "https://example.org/"
             "worker_x" "worker" "x" 404 "Not Found"
             eq_refl ltac:(discriminate) eq_refl eq_refl).
Defined.

(** X9: [fetch_html] reports successes only: with a label it can number (as
    the empty label and the names of the pool threads are) it prints exactly
    one line when the status is 200, and nothing on any other status or
    when the transport fails. *)
Theorem fetch_html_prints (web : string → http_outcome) (url : string)
    (th_name : option string) :
  label_parses th_name →
  match web url with
  | Response status_code _ =>
      if status_code =? 200
      then ∃ line, prints (trace (fetch_html web url th_name)) = [EvPrint line]
      else prints (trace (fetch_html web url th_name)) = []
  | TransportFailure => prints (trace (fetch_html web url th_name)) = []
  end.
Proof.
  intros Hlabel. unfold fetch_html, requests_get.
  destruct (web url) as [st body|]; cbn [bind emit ret app]; [|done].
  destruct (st =? 200); [|done].
  destruct th_name as [s|]; [|by eexists].
  rewrite thread_suffix_partition. unfold label_parses in Hlabel.
  destruct (Py.partition "_" s) as [[a thrd]|]; [|by eexists].
  cbn [bind ret app].
  destruct (Py.truthy thrd) eqn:Htr; [|by eexists].
  destruct (Hlabel eq_refl) as [n Hn]. unfold int_or_raise. rewrite Hn.
  by eexists.
Qed.

Lemma fetch_html_prints_witness :
  label_parses (Some (pool_thread_name 2))
  ∧ (∃ line, prints (trace (fetch_html Demo.web URL (Some (pool_thread_name 2))))
             = [EvPrint line])
  ∧ prints (trace (fetch_html Demo.web_404 URL (Some (pool_thread_name 2)))) = [].
Proof.
  assert (Hl : label_parses (Some (pool_thread_name 2)))
    by (apply pool_label_parses,
          (thread_number_fits_below 8 2 pool_of_eight_fits); lia).
  split; [exact Hl|]. split.
  - exact (fetch_html_prints Demo.web URL _ Hl).
  - exact (fetch_html_prints Demo.web_404 URL _ Hl).
Defined.

(* ===================================================================== *)
(** ** More on the card locator *)
(* ===================================================================== *)

Lemma imap_keys {A B} (f : nat → A → B) (l : list A) (k : nat) :
  (imap (fun i c => ((k + i)%nat, f (k + i)%nat c)) l).*1 = seq k (length l).
Proof.
  revert k. induction l as [|x l IH]; intros k; simpl; [done|].
  rewrite Nat.add_0_r. f_equal. rewrite <- (IH (S k)). f_equal.
  apply imap_ext. intros i c _. simpl.
  by replace (k + S i)%nat with (S (k + i)) by lia.
Qed.

Lemma imap_dict_get {A B} (f : nat → A → B) (l : list A) (k i : nat) :
  dict_get (k + i) (imap (fun j c => ((k + j)%nat, f (k + j)%nat c)) l)
  = f (k + i)%nat <$> l !! i.
Proof.
  revert k i. induction l as [|x l IH]; intros k i; simpl; [done|].
  rewrite Nat.add_0_r. destruct i as [|i]; simpl.
  - by rewrite Nat.add_0_r, Nat.eqb_refl.
  - destruct (Nat.eqb_spec k (k + S i)) as [Heq|_]; [lia|].
    replace (k + S i)%nat with (S k + i)%nat by lia. rewrite <- (IH (S k) i).
    f_equal. apply imap_ext. intros j c _. simpl.
    by replace (k + S j)%nat with (S (k + j)) by lia.
Qed.

(** X10: [parse_cards] numbers the cards by their position in the document:
    its keys are 0 .. N-1 in this order; under key [i] it holds the i-th
    card of the page together with the stripped text of the card's first
    [h2.title], or ["Job i"] when the card has none; it holds nothing under
    any other key. *)
Theorem parse_cards_positions (html_parser : string → node) (html : string) :
  let found := select div_card_content (html_parser html) in
  let cards := parse_cards html_parser html in
  dict_keys cards = seq 0 (length found)
  ∧ (∀ i card, found !! i = Some card →
       ∃ t, dict_get i cards = Some (t, card)
            ∧ match select_one h2_title card with
              | Some el => t = get_text_strip el
              | None => t = "Job " +:+ Py.str_of_nat i
              end)
  ∧ (∀ i, (length found ≤ i)%nat → dict_get i cards = None).
Proof.
  intros found cards. subst cards. rewrite parse_cards_spec. fold found.
  pose proof (imap_keys (fun i card => (card_title i card, card)) found 0) as Hk.
  pose proof (imap_dict_get (fun i card => (card_title i card, card)) found 0) as Hg.
  simpl in Hk, Hg. split; [exact Hk|]. split.
  - intros i card Hi. exists (card_title i card). rewrite Hg, Hi. split; [done|].
    unfold card_title. by destruct (select_one h2_title card).
  - intros i Hi. rewrite Hg. by rewrite lookup_ge_None_2.
Qed.

(** *** Titles carry no surrounding whitespace *)

Lemma lstrip_eq_or (s : string) :
  Py.lstrip s = "" ∨ ∃ c s', Py.lstrip s = String c s' ∧ Py.isspace c = false.
Proof.
  induction s as [|c s IH]; simpl; [by left|].
  destruct (Py.isspace c) eqn:Hc; [done|]. right. by exists c, s.
Qed.

Lemma rstrip_idemp (s : string) : Py.rstrip (Py.rstrip s) = Py.rstrip s.
Proof.
  induction s as [|c s IH]; simpl; [done|].
  destruct (Py.rstrip s) as [|c' r] eqn:Hr.
  - destruct (Py.isspace c) eqn:Hc; simpl; [done|]. by rewrite Hc.
  - simpl in *. by rewrite IH.
Qed.

Lemma rstrip_head (c : ascii) (s : string) :
  Py.isspace c = false → ∃ r, Py.rstrip (String c s) = String c r.
Proof.
  intros Hc. simpl. destruct (Py.rstrip s); [rewrite Hc|]; by eexists.
Qed.

(** A stripped string is empty or begins and ends with a character that
    is no whitespace. *)
Lemma strip_fixed (s : string) :
  Py.lstrip (Py.strip s) = Py.strip s ∧ Py.rstrip (Py.strip s) = Py.strip s.
Proof.
  unfold Py.strip. split; [|apply rstrip_idemp].
  destruct (lstrip_eq_or s) as [-> | (c & s' & -> & Hc)]; [done|].
  destruct (rstrip_head c s' Hc) as [r ->]. simpl. by rewrite Hc.
Qed.

Lemma rstrip_app_fixed (x y : string) :
  Py.rstrip y = y → y ≠ "" → Py.rstrip (x +:+ y) = x +:+ y.
Proof.
  intros Hy Hne. induction x as [|c x IH]; [done|].
  rewrite string_app_cons. simpl. rewrite IH.
  destruct (x +:+ y) eqn:Hxy; [|done].
  destruct x; [|discriminate]. rewrite string_app_nil in Hxy. congruence.
Qed.

Lemma lstrip_app_fixed (x y : string) :
  Py.lstrip x = x → x ≠ "" → Py.lstrip (x +:+ y) = x +:+ y.
Proof.
  intros Hx Hne. destruct x as [|c x]; [done|].
  rewrite string_app_cons. simpl in *.
  destruct (Py.isspace c); [|done].
  exfalso. clear Hne. revert c Hx. induction x as [|c' x IH]; intros c Hx;
    simpl in Hx; [done|].
  destruct (Py.isspace c'); [|by injection Hx; intros Hx' _;
                               apply (f_equal String.length) in Hx';
                               simpl in Hx'; lia].
  assert (Hlen : ∀ s, (String.length (Py.lstrip s) ≤ String.length s)%nat).
  { clear. induction s as [|d s IHs]; simpl; [lia|].
    destruct (Py.isspace d); simpl; lia. }
  apply (f_equal String.length) in Hx. simpl in Hx.
  pose proof (Hlen x). lia.
Qed.

Lemma join_stripped_fixed (pieces : list string) :
  let joined := foldr String.append "" (List.filter Py.truthy (map Py.strip pieces)) in
  Py.lstrip joined = joined ∧ Py.rstrip joined = joined.
Proof.
  induction pieces as [|p pieces [IHl IHr]]; simpl; [done|].
  destruct (Py.truthy (Py.strip p)) eqn:Hp; [|done]. simpl.
  apply truthy_true in Hp. destruct (strip_fixed p) as [Hl Hr]. split.
  - by apply lstrip_app_fixed.
  - destruct (foldr String.append "" _) as [|c rest].
    + assert (Happ : ∀ x, x +:+ "" = x)
        by (clear; induction x as [|d x IHx]; [done|];
            rewrite string_app_cons; by rewrite IHx).
      by rewrite Happ.
    + by apply rstrip_app_fixed.
Qed.

Lemma get_text_strip_fixed (n : node) :
  Py.strip (get_text_strip n) = get_text_strip n.
Proof.
  destruct (join_stripped_fixed (strings n)) as [Hl Hr].
  unfold Py.strip, get_text_strip. by rewrite Hl, Hr.
Qed.

Lemma str_of_nat_rstrip (n : nat) :
  Py.rstrip (Py.str_of_nat n) = Py.str_of_nat n.
Proof.
  unfold Py.str_of_nat, NilZero.string_of_uint.
  destruct (Nat.to_uint n) eqn:Hd; [reflexivity|..];
    rewrite <- Hd at 1; rewrite <- Hd; rewrite Hd; apply rstrip_uint.
Qed.

Lemma card_title_stripped (i : nat) (card : node) :
  Py.strip (card_title i card) = card_title i card.
Proof.
  unfold card_title. destruct (select_one h2_title card) as [el|].
  - apply get_text_strip_fixed.
  - unfold Py.strip. change (Py.lstrip ("Job " +:+ ?x)) with ("Job " +:+ x).
    apply rstrip_app_fixed; [apply str_of_nat_rstrip|].
    apply truthy_true, str_of_nat_nonempty.
Qed.

(** X11: the titles [parse_cards] gives carry no whitespace at either end:
    stripping one, as the sink does before it looks the title up, returns
    it unchanged. *)
Theorem parse_cards_titles_stripped (html_parser : string → node)
    (html : string) (i : nat) (t : string) (card : node) :
  dict_get i (parse_cards html_parser html) = Some (t, card) →
  Py.strip t = t.
Proof.
  rewrite parse_cards_spec.
  pose proof (imap_dict_get (fun i card => (card_title i card, card))
                (select div_card_content (html_parser html)) 0 i) as Hg.
  simpl in Hg. rewrite Hg.
  destruct (_ !! i) as [c|]; [|done]. simpl. intros [= <- <-].
  apply card_title_stripped.
Qed.

Lemma parse_cards_titles_stripped_witness :
  dict_get 0 (parse_cards Demo.html_parser "<listing>")
  = Some ("Senior Python Developer", Demo.card_full)
  ∧ Py.strip "Senior Python Developer" = "Senior Python Developer".
Proof.
  split; [reflexivity|].
  exact (parse_cards_titles_stripped Demo.html_parser "<listing>" 0 _ _ eq_refl).
Defined.

(* ===================================================================== *)
(** ** More on the record extractor *)
(* ===================================================================== *)

(** X12: a card whose second footer link has no [href] attribute cannot be
    extracted: [extract_info] raises [KeyError] and requests nothing,
    whatever else the card holds. *)
Theorem extract_info_missing_href (web : string → http_outcome)
    (html_parser : string → node) (th : string) (idx : nat) (t : string)
    (card link : node) :
  select a_card_footer_item card !! 1%nat = Some link →
  get "href" link = None →
  outcome (extract_info web html_parser th idx t card) = Raise KeyError
  ∧ gets (trace (extract_info web html_parser th idx t card)) = [].
Proof.
  intros Hlink Hhref.
  assert (Hm : href_missing card = true).
  { unfold href_missing, second_link. by rewrite Hlink, Hhref. }
  by rewrite extract_info_outcome, extract_info_gets, Hm.
Qed.

Lemma extract_info_missing_href_witness :
  select a_card_footer_item Demo.card_no_href !! 1%nat
  = Some (Demo.footer_link [] "Apply")
  ∧ outcome (extract_info Demo.web Demo.html_parser (pool_thread_name 0) 0
               "Job 0" Demo.card_no_href) = Raise KeyError.
Proof.
  split; [reflexivity|].
  exact (proj1 (extract_info_missing_href Demo.web Demo.html_parser
                  (pool_thread_name 0) 0 "Job 0" Demo.card_no_href _
                  eq_refl eq_refl)).
Defined.

Lemma partition_app (c : ascii) (s a b : string) :
  Py.partition c s = Some (a, b) →
  s = a +:+ String c b ∧ Py.contains c a = false.
Proof.
  revert a b. induction s as [|d s IH]; intros a b; simpl; [done|].
  destruct (Ascii.eqb_spec d c) as [->|Hne].
  - by intros [= <- <-].
  - destruct (Py.partition c s) as [[a' b']|]; [|done].
    intros [= <- <-]. destruct (IH a' b' eq_refl) as [-> Hc].
    split; [done|]. simpl. by destruct (Ascii.eqb_spec d c).
Qed.

(** X13: city and region are the two sides of the first comma of the
    location text: in every record [extract_info] produces, the city holds
    no comma, and city, a comma and region put together give the location
    text back (the text of [p.location], or ["NC,--"] without that node).
    Nothing is trimmed: the region keeps the blank that follows the comma. *)
Theorem extract_info_location (web : string → http_outcome)
    (html_parser : string → node) (th : string) (idx : nat) (t : string)
    (card : node) (i : nat) (r : JobRecord) :
  outcome (extract_info web html_parser th idx t card) = Return (i, r) →
  ville (location r) +:+ "," +:+ region (location r)
  = match select_one p_location card with
    | Some el => get_text_strip el
    | None => "NC,--"
    end
  ∧ Py.contains "," (ville (location r)) = false.
Proof.
  rewrite extract_info_outcome. fold (location_text card).
  destruct (href_missing card); [done|].
  destruct (Py.partition "," (location_text card)) as [[v rg]|] eqn:Hp; [|done].
  destruct (outcome (detail_fetch web th card)); [|done].
  intros [= <- <-]. simpl.
  destruct (partition_app _ _ _ _ Hp) as [-> Hc]. done.
Qed.

Lemma extract_info_location_witness :
  outcome (extract_info Demo.web Demo.html_parser (pool_thread_name 0) 0
             "Senior Python Developer" Demo.card_full)
  = Return (0%nat, Demo.record_full)
  ∧ ville (location Demo.record_full) +:+ "," +:+ region (location Demo.record_full)
    = "Stewartbury, AA".
Proof.
  assert (Hrun : outcome (extract_info Demo.web Demo.html_parser
                            (pool_thread_name 0) 0
                            "Senior Python Developer" Demo.card_full)
                 = Return (0%nat, Demo.record_full)) by reflexivity.
  split; [exact Hrun|].
  exact (proj1 (extract_info_location _ _ _ _ _ _ _ _ Hrun)).
Defined.

(** X14: an extraction that produces a record has requested the detail page
    exactly when the record has a URL, once, and at that URL. *)
Theorem extract_info_requests (web : string → http_outcome)
    (html_parser : string → node) (th : string) (idx : nat) (t : string)
    (card : node) (i : nat) (r : JobRecord) :
  outcome (extract_info web html_parser th idx t card) = Return (i, r) →
  gets (trace (extract_info web html_parser th idx t card))
  = if String.eqb (url r) "NC" then [] else [EvGet (url r)].
Proof.
  rewrite extract_info_outcome, extract_info_gets.
  destruct (href_missing card); [done|].
  destruct (Py.partition "," (location_text card)) as [[v rg]|]; [|done].
  destruct (outcome (detail_fetch web th card)); [|done].
  intros [= <- <-]. simpl. unfold detail_fetch.
  destruct (String.eqb (card_url card) "NC"); [done|]. simpl.
  apply fetch_html_gets.
Qed.

Lemma extract_info_requests_witness :
  outcome (extract_info Demo.web Demo.html_parser (pool_thread_name 0) 0
             "Senior Python Developer" Demo.card_full)
  = Return (0%nat, Demo.record_full)
  ∧ gets (trace (extract_info Demo.web Demo.html_parser (pool_thread_name 0) 0
                   "Senior Python Developer" Demo.card_full))
    = [EvGet Demo.detail_url].
Proof.
  assert (Hrun : outcome (extract_info Demo.web Demo.html_parser
                            (pool_thread_name 0) 0
                            "Senior Python Developer" Demo.card_full)
                 = Return (0%nat, Demo.record_full)) by reflexivity.
  split; [exact Hrun|].
  exact (extract_info_requests _ _ _ _ _ _ _ _ Hrun).
Defined.

(** X15: a record has a content only when its detail page was served: if the
    content of a record [extract_info] produces is not empty, the record
    has a URL, the GET of that URL had status 200 and a non-empty body, and
    the content is the stripped text of the first paragraph below a
    [div.content] of that body. *)
Theorem extract_info_content (web : string → http_outcome)
    (html_parser : string → node) (th : string) (idx : nat) (t : string)
    (card : node) (i : nat) (r : JobRecord) :
  outcome (extract_info web html_parser th idx t card) = Return (i, r) →
  content r ≠ "" →
  url r ≠ "NC"
  ∧ ∃ body p_elem,
      web (url r) = Response 200 body
      ∧ body ≠ ""
      ∧ select_one_below div_content p_tag (html_parser body) = Some p_elem
      ∧ content r = get_text_strip p_elem.
Proof.
  intros Hout Hc. rewrite extract_info_outcome in Hout.
  destruct (href_missing card); [done|].
  destruct (Py.partition "," (location_text card)) as [[v rg]|]; [|done].
  destruct (outcome (detail_fetch web th card)) as [html|] eqn:Hfetch; [|done].
  injection Hout as <- <-. simpl in *. unfold detail_content in *.
  destruct (Py.truthy html) eqn:Hb; [|done].
  destruct (select_one_below _ _ _) as [p|] eqn:Hsel; [|done].
  unfold detail_fetch in Hfetch.
  destruct (String.eqb_spec (card_url card) "NC") as [Heq|Hne]; simpl in Hfetch.
  { injection Hfetch as <-. discriminate. }
  split; [done|]. exists html, p.
  rewrite fetch_html_outcome in Hfetch.
  destruct (web (card_url card)) as [st body|]; [|done].
  destruct (Z.eqb_spec st 200) as [->|Hst];
    [|injection Hfetch as <-; discriminate].
  assert (body = html) as ->.
  { destruct (outcome (thread_suffix (Some th))) as [thrd|]; [|done].
    destruct (Py.truthy thrd); [destruct (Py.int thrd); [|done]|]; congruence. }
  split; [done|]. split; [by apply truthy_true|]. done.
Qed.

Lemma extract_info_content_witness :
  outcome (extract_info Demo.web Demo.html_parser (pool_thread_name 0) 0
             "Senior Python Developer" Demo.card_full)
  = Return (0%nat, Demo.record_full)
  ∧ content Demo.record_full ≠ ""
  ∧ ∃ body, Demo.web (url Demo.record_full) = Response 200 body ∧ body ≠ "".
Proof.
  assert (Hrun : outcome (extract_info Demo.web Demo.html_parser
                            (pool_thread_name 0) 0
                            "Senior Python Developer" Demo.card_full)
                 = Return (0%nat, Demo.record_full)) by reflexivity.
  assert (Hc : content Demo.record_full ≠ "") by discriminate.
  split; [exact Hrun|]. split; [exact Hc|].
  destruct (extract_info_content _ _ _ _ _ _ _ _ Hrun Hc)
    as (_ & body & p & Hweb & Hbody & _).
  exists body. split; [exact Hweb | exact Hbody].
Defined.

(** X16: a detail page that cannot be served: for a well-formed card with a
    URL, a transport failure of the detail fetch ends the extraction with
    the exception of the transport, and a status other than 200 gives a
    record with that URL and an empty content. *)
Theorem extract_info_detail_failure (web : string → http_outcome)
    (html_parser : string → node) (th : string) (idx : nat) (t : string)
    (card : node) :
  well_formed_card card → card_url card ≠ "NC" →
  match web (card_url card) with
  | TransportFailure =>
      outcome (extract_info web html_parser th idx t card)
      = Raise RequestException
  | Response status_code _ =>
      status_code ≠ 200 →
      ∃ r, outcome (extract_info web html_parser th idx t card) = Return (idx, r)
           ∧ url r = card_url card ∧ content r = ""
  end.
Proof.
  intros [Hhref Hcomma] Hurl. rewrite extract_info_outcome, Hhref.
  destruct (Py.partition "," (location_text card)) as [[v rg]|] eqn:Hp;
    [|apply partition_none_iff in Hp; congruence].
  unfold detail_fetch. apply String.eqb_neq in Hurl. rewrite Hurl. simpl.
  rewrite fetch_html_outcome.
  destruct (web (card_url card)) as [st body|]; [|done].
  intros Hst. apply Z.eqb_neq in Hst. rewrite Hst. by eexists.
Qed.

Lemma extract_info_detail_failure_witness :
  well_formed_card Demo.card_full ∧ card_url Demo.card_full ≠ "NC"
  ∧ outcome (extract_info Demo.web_down Demo.html_parser (pool_thread_name 0) 0
               "Senior Python Developer" Demo.card_full)
    = Raise RequestException
  ∧ ∃ r, outcome (extract_info Demo.web_404 Demo.html_parser
                    (pool_thread_name 0) 0 "Senior Python Developer"
                    Demo.card_full) = Return (0%nat, r)
         ∧ url r = Demo.detail_url ∧ content r = "".
Proof.
  assert (Hwf : well_formed_card Demo.card_full) by (by split).
  assert (Hurl : card_url Demo.card_full ≠ "NC") by discriminate.
  split; [exact Hwf|]. split; [exact Hurl|]. split.
  - exact (extract_info_detail_failure Demo.web_down Demo.html_parser
             (pool_thread_name 0) 0 "Senior Python Developer" Demo.card_full
             Hwf Hurl).
  - exact (extract_info_detail_failure Demo.web_404 Demo.html_parser
             (pool_thread_name 0) 0 "Senior Python Developer" Demo.card_full
             Hwf Hurl ltac:(discriminate)).
Defined.

(* ===================================================================== *)
(** ** More on the orchestrator *)
(* ===================================================================== *)

(** X17: failures before the pool exists.  When the listing page cannot be
    reached, [scrape_jobs] raises the exception of the transport after its
    one request.  When the listing page is there but the pool size is not
    positive, it raises [ValueError] after the listing fetch: no extraction
    has started and no detail page has been requested. *)
Theorem scrape_jobs_early_failure (web : string → http_outcome)
    (html_parser : string → node) (workers : Z) (sched : schedule) :
  match web URL with
  | TransportFailure =>
      scrape_jobs web html_parser workers sched
      = ([EvGet URL], Raise RequestException)
  | Response status_code html =>
      status_code = 200 → html ≠ "" → workers ≤ 0 →
      scrape_jobs web html_parser workers sched
      = (trace (fetch_html web URL (Some "")), Raise ValueError)
      ∧ gets (trace (scrape_jobs web html_parser workers sched)) = [EvGet URL]
      ∧ EvSleep ∉ trace (scrape_jobs web html_parser workers sched)
  end.
Proof.
  destruct (web URL) as [st html|] eqn:Hweb.
  - intros -> Hhtml Hw.
    assert (Hrun : scrape_jobs web html_parser workers sched
                   = (trace (fetch_html web URL (Some "")), Raise ValueError)).
    { pose proof (fetch_html_main web URL) as Hout. rewrite Hweb in Hout.
      simpl in Hout. unfold scrape_jobs.
      destruct (fetch_html web URL (Some "")) as [tr o]. simpl in Hout. subst o.
      cbn [bind]. apply truthy_true in Hhtml. rewrite Hhtml. cbn [negb].
      rewrite (proj2 (Z.leb_le _ _)) by done. cbn [raise trace fst].
      by rewrite app_nil_r. }
    split; [exact Hrun|]. rewrite Hrun. cbn [trace fst]. split.
    + apply fetch_html_gets.
    + apply fetch_html_no_sleep.
  - unfold scrape_jobs, fetch_html, requests_get. by rewrite Hweb.
Qed.

Lemma scrape_jobs_early_failure_witness :
  scrape_jobs Demo.web_down Demo.html_parser 5 (Demo.in_order 0)
  = ([EvGet URL], Raise RequestException)
  ∧ outcome (scrape_jobs Demo.web Demo.html_parser 0 (Demo.in_order 2))
    = Raise ValueError
  ∧ gets (trace (scrape_jobs Demo.web Demo.html_parser 0 (Demo.in_order 2)))
    = [EvGet URL].
Proof.
  split.
  - exact (scrape_jobs_early_failure Demo.web_down Demo.html_parser 5
             (Demo.in_order 0)).
  - destruct (scrape_jobs_early_failure Demo.web Demo.html_parser 0
                (Demo.in_order 2) eq_refl ltac:(discriminate) ltac:(lia))
      as (Hrun & Hgets & _).
    split; [|exact Hgets]. unfold outcome. by rewrite Hrun.
Defined.

(** X18: one failing card fails the run.  With the listing page fetched and
    a pool of positive size, if the extraction of some card raises, then
    under every schedule [scrape_jobs] raises too and returns no partial
    result; the exception is the one some card's extraction raised. *)
Theorem scrape_jobs_task_fault (web : string → http_outcome)
    (html_parser : string → node) (workers : Z) (sched : schedule)
    (i : nat) (card : node) (e : exn) :
  let cards := listing_cards web html_parser in
  (∃ html, web URL = Response 200 html) →
  0 < workers →
  valid_schedule workers (length cards) sched →
  cards !! i = Some card →
  outcome (extract_info web html_parser (pool_thread_name (worker_of sched i)) i
             (card_title i card) card) = Raise e →
  ∃ e' j card',
    outcome (scrape_jobs web html_parser workers sched) = Raise e'
    ∧ cards !! j = Some card'
    ∧ outcome (extract_info web html_parser
                 (pool_thread_name (worker_of sched j)) j
                 (card_title j card') card') = Raise e'.
Proof.
  intros cards [html Hweb] Hw [_ Hperm] Hcard Hfail.
  rewrite scrape_jobs_outcome, Hweb. simpl.
  assert (Hc : (if Py.truthy html
                then select div_card_content (html_parser html) else [])
               = cards).
  { subst cards. unfold listing_cards. by rewrite Hweb. }
  destruct (Py.truthy html); [|by rewrite <- Hc in Hcard].
  rewrite (proj2 (Z.leb_gt _ _)) by done. rewrite Hc.
  set (futures := imap _ cards).
  assert (Hin : i ∈ completion sched).
  { rewrite Hperm, elem_of_seq. apply lookup_lt_Some in Hcard. lia. }
  assert (Hi : ∃ tr, futures !! i = Some (tr, Raise e)).
  { subst futures. rewrite list_lookup_imap, Hcard. simpl.
    destruct (extract_info _ _ _ _ _ _) as [tr o]. simpl in Hfail. subst o.
    by eexists. }
  destruct Hi as [tr Hi].
  destruct (collect_raises futures (completion sched) [] i tr e Hin Hi)
    as [e' He'].
  destruct (collect_raise_inv _ _ _ _ He') as (j & tr' & Hj & Hfj).
  subst futures. rewrite list_lookup_imap in Hfj.
  destruct (cards !! j) as [card'|] eqn:Hcj; [|done]. simpl in Hfj.
  injection Hfj as Hfj. exists e', j, card'.
  split; [done|]. split; [done|]. unfold outcome. by rewrite Hfj.
Qed.

Lemma scrape_jobs_task_fault_witness :
  (∃ html, Demo.web_remote URL = Response 200 html)
  ∧ valid_schedule 5 (length (listing_cards Demo.web_remote Demo.html_parser))
      (Demo.in_order 2)
  ∧ ∃ e', outcome (scrape_jobs Demo.web_remote Demo.html_parser 5
                     (Demo.in_order 2)) = Raise e'.
Proof.
  assert (Hfetch : ∃ html, Demo.web_remote URL = Response 200 html)
    by (by exists "<remote>").
  assert (Hsched : valid_schedule 5
                     (length (listing_cards Demo.web_remote Demo.html_parser))
                     (Demo.in_order 2))
    by (apply in_order_valid; lia).
  split; [exact Hfetch|]. split; [exact Hsched|].
  destruct (scrape_jobs_task_fault Demo.web_remote Demo.html_parser 5
              (Demo.in_order 2) 1 Demo.card_remote IndexError
              Hfetch ltac:(lia) Hsched eq_refl eq_refl)
    as (e' & _ & _ & Hrun & _).
  exists e'. exact Hrun.
Defined.

Lemma dict_set_keys {V} (k : nat) (v : V) (d : pydict V) :
  dict_keys (dict_set k v d)
  = if decide (k ∈ dict_keys d) then dict_keys d else dict_keys d ++ [k].
Proof.
  unfold dict_keys. induction d as [|[k' v'] d IH].
  - cbn [dict_set fmap list_fmap fst app].
    by rewrite decide_False by apply not_elem_of_nil.
  - cbn [dict_set]. destruct (Nat.eqb_spec k' k) as [->|Hne];
      cbn [fmap list_fmap fst app].
    + by rewrite decide_True by left.
    + fold (fmap (M := list) (@fst nat V)). rewrite IH.
      destruct (decide (k ∈ d.*1)) as [Hin|Hnin].
      * by rewrite decide_True by (by right).
      * rewrite decide_False; [done|]. rewrite not_elem_of_cons. split; congruence.
Qed.

Lemma dict_set_nodup {V} (k : nat) (v : V) (d : pydict V) :
  NoDup (dict_keys d) → NoDup (dict_keys (dict_set k v d)).
Proof.
  intros Hnd. rewrite dict_set_keys. destruct (decide _); [done|].
  apply NoDup_app. split; [done|]. split; [|apply NoDup_singleton].
  by intros x Hx ->%list_elem_of_singleton.
Qed.

Lemma collect_keys (futures : list (M (nat * JobRecord))) (order : list nat)
    (acc results : pydict JobRecord) :
  collect futures order acc = Return results →
  (NoDup (dict_keys acc) → NoDup (dict_keys results))
  ∧ ∀ k, k ∈ dict_keys results →
      k ∈ dict_keys acc
      ∨ ∃ p t r, p ∈ order ∧ futures !! p = Some (t, Return (k, r)).
Proof.
  revert acc. induction order as [|p order IH]; intros acc Hret; simpl in Hret.
  - injection Hret as <-. split; [done | by left].
  - destruct (futures !! p) as [[t [[idx r]|e]]|] eqn:Hp; [|done|].
    + destruct (IH _ Hret) as [Hnd Hk]. split.
      * intros Hacc. by apply Hnd, dict_set_nodup.
      * intros k Hin. apply Hk in Hin as [Hin|(q & t' & r' & Hq & Hf)].
        -- rewrite dict_set_keys in Hin.
           destruct (decide _); [by left|].
           apply elem_of_app in Hin as [?| ->%list_elem_of_singleton];
             [by left|].
           right. exists p, t, r. split; [left | done].
        -- right. exists q, t', r'. split; [by right | done].
    + destruct (IH _ Hret) as [Hnd Hk]. split; [done|].
      intros k Hin. apply Hk in Hin as [Hin|(q & t' & r' & Hq & Hf)];
        [by left|].
      right. exists q, t', r'. split; [by right | done].
Qed.

(** X19: whatever the pool size and the schedule, a dictionary that
    [scrape_jobs] returns has no key twice, and each of its keys is the
    position of a card of the listing page. *)
Theorem scrape_jobs_keys (web : string → http_outcome)
    (html_parser : string → node) (workers : Z) (sched : schedule)
    (results : pydict JobRecord) :
  outcome (scrape_jobs web html_parser workers sched) = Return results →
  NoDup (dict_keys results)
  ∧ ∀ k, k ∈ dict_keys results →
      (k < length (listing_cards web html_parser))%nat.
Proof.
  rewrite scrape_jobs_outcome. unfold listing_cards.
  destruct (web URL) as [st html|]; [|done].
  destruct ((st =? 200) && Py.truthy html).
  - destruct (workers <=? 0); [done|]. intros Hret.
    destruct (collect_keys _ _ _ _ Hret) as [Hnd Hk]. split.
    + apply Hnd. apply NoDup_nil. exact I.
    + intros k Hin. apply Hk in Hin as [Hin|(p & t & r & _ & Hf)];
        [by apply elem_of_nil in Hin|].
      rewrite list_lookup_imap in Hf.
      destruct (_ !! p) as [card|] eqn:Hcard; [|done]. simpl in Hf.
      injection Hf as Hf.
      assert (k = p) as ->.
      { eapply extract_info_index. unfold outcome. by rewrite Hf. }
      by eapply lookup_lt_Some.
  - intros [= <-]. split; [apply NoDup_nil; exact I|].
    intros k Hin. by apply elem_of_nil in Hin.
Qed.

Lemma scrape_jobs_keys_witness :
  ∃ results,
    outcome (scrape_jobs Demo.web Demo.html_parser 8 (Demo.reversed 8 2))
    = Return results
    ∧ NoDup (dict_keys results).
Proof.
  eexists. split; [reflexivity|].
  exact (proj1 (scrape_jobs_keys Demo.web Demo.html_parser 8
                  (Demo.reversed 8 2) _ eq_refl)).
Defined.

(* ===================================================================== *)
(** ** The JSON dump loses nothing *)
(* ===================================================================== *)

Lemma string_app_assoc (a b c : string) : (a +:+ b) +:+ c = a +:+ (b +:+ c).
Proof.
  induction a as [|x a IH]; [done|]. rewrite !string_app_cons. by rewrite IH.
Qed.

Lemma decode_escape_char (c : ascii) (x : string) :
  decode_body (escape_char c +:+ x) = prepend c (decode_body x).
Proof. destruct c as [[] [] [] [] [] [] [] []]; reflexivity. Qed.

Lemma decode_escape (s rest : string) :
  decode_body (escape s +:+ String quote_char rest) = Some (s, rest).
Proof.
  induction s as [|c s IH]; [reflexivity|].
  cbn [escape]. rewrite string_app_assoc, decode_escape_char, IH. done.
Qed.

(** An encoded string followed by anything is read back as the string and
    what followed: the first quote that is not escaped closes it. *)
Lemma encode_basestring_prefix (s1 s2 r1 r2 : string) :
  encode_basestring s1 +:+ r1 = encode_basestring s2 +:+ r2 →
  s1 = s2 ∧ r1 = r2.
Proof.
  unfold encode_basestring. rewrite !string_app_cons, !string_app_assoc.
  rewrite !string_app_cons, !string_app_nil. intros [= Heq].
  apply (f_equal decode_body) in Heq. rewrite !decode_escape in Heq.
  by injection Heq.
Qed.

(** The JSON encoder is faithful on strings: two different strings are
    never written as the same text, and what it writes is read back by
    undoing the escapes up to the first quote that is not escaped. *)
Lemma encode_basestring_round_trip (s : string) :
  decode_body (escape s +:+ String quote_char "") = Some (s, "")
  ∧ ∀ s', encode_basestring s = encode_basestring s' → s = s'.
Proof.
  split; [apply decode_escape|].
  intros s' Heq.
  apply (encode_basestring_prefix s s' "" "").
  by rewrite Heq.
Qed.

Lemma str_of_nat_inj (k1 k2 : nat) :
  Py.str_of_nat k1 = Py.str_of_nat k2 → k1 = k2.
Proof.
  intros Heq. apply DecimalNat.Unsigned.to_uint_inj.
  unfold Py.str_of_nat in Heq.
  apply (f_equal NilZero.uint_of_string) in Heq.
  rewrite !NilZero.usu in Heq by apply to_uint_nonnil. congruence.
Qed.

(** Peels equal literals and encoded strings off the front of an equation
    between two texts. *)
Lemma string_cons_inj (c : ascii) (a b : string) :
  String c a = String c b → a = b.
Proof. by intros [= ->]. Qed.

Ltac peel H :=
  repeat first
    [ apply encode_basestring_prefix in H as [? H]
    | apply (inj (String.append _)) in H
    | apply string_cons_inj in H ].

(** The text of one record, followed by anything, is read back as the
    record and what followed. *)
Lemma record_text_prefix (r1 r2 : JobRecord) (x1 x2 : string) :
  iterencode 1 (record_json r1) +:+ x1 = iterencode 1 (record_json r2) +:+ x2 →
  r1 = r2 ∧ x1 = x2.
Proof.
  destruct r1 as [t1 c1 [v1 g1] d1 u1 n1], r2 as [t2 c2 [v2 g2] d2 u2 n2].
  cbn [iterencode record_json location_json map String.concat
       title company location date url content ville region].
  rewrite !string_app_assoc.
  repeat (rewrite !string_app_cons; rewrite ?string_app_nil).
  intros H. peel H. by subst.
Qed.

Lemma member_text_prefix (m1 m2 : nat * JobRecord) (x1 x2 : string) :
  member_text m1 +:+ x1 = member_text m2 +:+ x2 → m1 = m2 ∧ x1 = x2.
Proof.
  destruct m1 as [k1 r1], m2 as [k2 r2]. unfold member_text. simpl fst. simpl snd.
  rewrite !string_app_assoc. intros H.
  apply encode_basestring_prefix in H as [Hk H].
  apply (inj (String.append _)) in H.
  apply record_text_prefix in H as [-> ->].
  apply str_of_nat_inj in Hk as ->. done.
Qed.

Lemma members_text_cons (m : nat * JobRecord) (data : pydict JobRecord) :
  members_text (m :: data)
  = match data with
    | [] => member_text m
    | _ => member_text m +:+ ("," +:+ newline_indent 1) +:+ members_text data
    end.
Proof. by destruct data. Qed.

Lemma members_text_inj (data1 data2 : pydict JobRecord) :
  data1 ≠ [] → data2 ≠ [] →
  members_text data1 +:+ newline_indent 0 +:+ "}"
  = members_text data2 +:+ newline_indent 0 +:+ "}" →
  data1 = data2.
Proof.
  revert data2. induction data1 as [|m1 rest1 IH]; intros data2 H1 H2; [done|].
  destruct data2 as [|m2 rest2]; [done|].
  rewrite !members_text_cons.
  destruct rest1 as [|m1' rest1], rest2 as [|m2' rest2];
    rewrite ?string_app_assoc; intros H;
    apply member_text_prefix in H as [-> H].
  - done.
  - discriminate H.
  - discriminate H.
  - do 2 apply (inj (String.append _)) in H.
    f_equal. by apply IH.
Qed.

Lemma json_dumps_cons (m : nat * JobRecord) (data : pydict JobRecord) :
  json_dumps (m :: data)
  = "{" +:+ newline_indent 1 +:+ members_text (m :: data)
    +:+ newline_indent 0 +:+ "}".
Proof.
  unfold json_dumps, data_json, members_text. cbn [map iterencode].
  rewrite <- (map_map (fun kr => (Py.str_of_nat kr.1, record_json kr.2))
                (fun kv => match kv with
                           | (k, v') => encode_basestring k +:+ ": "
                                        +:+ iterencode 1 v'
                           end)).
  done.
Qed.

(** X21: the dump loses nothing: two dictionaries of records that are
    written as the same document are the same dictionary, with the same
    keys in the same order and the same records. *)
Theorem json_dumps_injective (data1 data2 : pydict JobRecord) :
  json_dumps data1 = json_dumps data2 → data1 = data2.
Proof.
  destruct data1 as [|m1 rest1], data2 as [|m2 rest2]; [done|..].
  - rewrite json_dumps_cons. discriminate.
  - rewrite json_dumps_cons. discriminate.
  - rewrite !json_dumps_cons. intros H.
    do 2 apply (inj (String.append _)) in H.
    by apply members_text_inj.
Qed.

Lemma json_dumps_injective_witness :
  let data := [(1%nat, Demo.record_bare "Job 1"); (0%nat, Demo.record_full)] in
  json_dumps data = json_dumps data ∧ data = data.
Proof.
  intros data. split; [reflexivity|].
  exact (json_dumps_injective data data eq_refl).
Defined.

(** *** The directory of the dump *)

Lemma upto_last_slash_empty (p : string) :
  upto_last_slash p = "" ↔ Py.contains "/" p = false.
Proof.
  induction p as [|c p IH]; simpl; [done|].
  destruct (upto_last_slash p) eqn:Hh.
  - destruct (Ascii.eqb c "/"); [done|]. apply IH.
  - destruct (Ascii.eqb c "/"); [done|]. split; [done|].
    intros Hc. apply IH in Hc. done.
Qed.

Lemma rstrip_slashes_empty (s : string) :
  rstrip_slashes s = "" → all_slashes s = true.
Proof.
  induction s as [|c s IH]; simpl; [done|].
  destruct (rstrip_slashes s); [|done].
  destruct (Ascii.eqb c "/"); [auto | done].
Qed.

Lemma dirname_empty (p : string) :
  dirname p = "" ↔ Py.contains "/" p = false.
Proof.
  unfold dirname. rewrite <- upto_last_slash_empty.
  destruct (upto_last_slash p) as [|c h] eqn:Hh; [done|].
  cbn [Py.truthy andb]. destruct (all_slashes (String c h)) eqn:Ha; [done|].
  cbn [negb]. split; [|done]. intros Hr%rstrip_slashes_empty. congruence.
Qed.

(** X22: [save_json] makes a directory exactly when the path of the file
    holds a slash; it then writes one file, the one asked for, with the
    dump of the dictionary. *)
Theorem save_json_operations (data : pydict JobRecord) (filepath : string) :
  save_json data filepath
  = (if Py.contains "/" filepath then [Makedirs (dirname filepath)] else [])
    ++ [WriteFile filepath (json_dumps data)]
  ∧ (Py.contains "/" filepath = true → dirname filepath ≠ "").
Proof.
  unfold save_json. pose proof (dirname_empty filepath) as Hd.
  destruct (Py.contains "/" filepath).
  - assert (Hne : dirname filepath ≠ "") by (intros H; apply Hd in H; done).
    split; [|done]. apply truthy_true in Hne. by rewrite Hne.
  - split; [|done]. by rewrite (proj2 Hd).
Qed.

(* ===================================================================== *)
(** ** The program as a whole *)
(* ===================================================================== *)

Lemma dict_get_elem {V} (k : nat) (v : V) (d : pydict V) :
  dict_get k d = Some v → (k, v) ∈ d.
Proof.
  induction d as [|[k' v'] d IH]; simpl; [done|].
  destruct (Nat.eqb_spec k' k) as [->|Hne].
  - intros [= ->]. left.
  - intros H. right. auto.
Qed.

(** What a run over well-formed cards returns, on a pool every thread of
    which has a number [int] reads back. *)
Lemma scrape_jobs_result (web : string → http_outcome)
    (html_parser : string → node) (workers : Z) (sched : schedule) :
  let cards := listing_cards web html_parser in
  (∃ html, web URL = Response 200 html) →
  0 < workers → workers ≤ 10 ^ Z.of_nat Py.max_str_digits →
  valid_schedule workers (length cards) sched →
  (∀ card, card ∈ cards → well_formed_card card ∧ detail_fetch_succeeds web card) →
  ∃ results,
    outcome (scrape_jobs web html_parser workers sched) = Return results
    ∧ NoDup (dict_keys results)
    ∧ ∀ i card, cards !! i = Some card →
        ∃ r, (i, r) ∈ results
             ∧ outcome (extract_info web html_parser
                          (pool_thread_name (worker_of sched i)) i
                          (card_title i card) card) = Return (i, r).
Proof.
  intros cards [html Hweb] Hw Hfits [Hthreads Hperm] Hcards.
  rewrite scrape_jobs_outcome, Hweb. simpl.
  assert (Hc : (if Py.truthy html
                then select div_card_content (html_parser html) else [])
               = cards).
  { subst cards. unfold listing_cards. by rewrite Hweb. }
  destruct (Py.truthy html).
  - rewrite (proj2 (Z.leb_gt _ _)) by done. rewrite Hc.
    set (futures := imap _ cards).
    assert (Hfut : ∀ p, p ∈ completion sched →
              ∃ t r, futures !! p = Some (t, Return (p, r))).
    { intros p Hp. rewrite Hperm, elem_of_seq in Hp.
      destruct (lookup_lt_is_Some_2 cards p) as [card Hcard]; [lia|].
      destruct (Hcards card) as [Hwf Hdet]; [by eapply list_elem_of_lookup_2|].
      assert (Hthread : thread_number_fits (worker_of sched p))
        by (eapply thread_number_fits_below; [exact Hfits|]; apply Hthreads; lia).
      destruct (extract_info_returns web html_parser (worker_of sched p) p
                  (card_title p card) card Hthread Hwf Hdet) as [r Hr].
      subst futures. rewrite list_lookup_imap, Hcard. simpl.
      destruct (extract_info _ _ _ _ _ _) as [t o]. simpl in Hr. subst o. eauto. }
    assert (Hidx : ∀ p t' idx r',
              futures !! p = Some (t', Return (idx, r')) → idx = p).
    { intros p t' idx r'. subst futures. rewrite list_lookup_imap.
      destruct (cards !! p) as [c|]; [|done]. simpl. intros [= Hrun].
      eapply extract_info_index. unfold outcome. by rewrite Hrun. }
    destruct (collect_returns futures (completion sched) [])
      as (results & Hres & Hkeys);
      [rewrite Hperm; apply NoDup_seq | intros p _; apply not_elem_of_nil
      | exact Hfut |].
    exists results. split; [done|]. split.
    + simpl in Hkeys. rewrite Hkeys, Hperm. apply NoDup_seq.
    + intros i card Hcard.
      assert (Hin : i ∈ completion sched).
      { rewrite Hperm, elem_of_seq. apply lookup_lt_Some in Hcard. lia. }
      destruct (Hfut i Hin) as (t & r & Hi). exists r. split.
      * apply dict_get_elem.
        rewrite (collect_get futures _ _ _ Hidx Hres i).
        by rewrite decide_True, Hi by done.
      * subst futures. rewrite list_lookup_imap, Hcard in Hi. simpl in Hi.
        injection Hi as Hi. unfold outcome. by rewrite Hi.
  - exists []. split; [done|]. split; [apply NoDup_nil; exact I|].
    intros i card Hi. rewrite <- Hc in Hi. by rewrite lookup_nil in Hi.
Qed.

(** X23: from the card to the store.  When the listing fetch succeeds, the
    pool size is positive (and no more than ten to the power
    [max_str_digits], so that [int] reads back every thread number) and
    every card is well formed with its detail fetch succeeding, [main] ends
    normally, writes the dump of the
    dictionary to the JSON file, and leaves in [jobs], under the position of
    every card of the page, a fact row holding the company, city, date, url
    and content [extract_info] produces for that card, with the id under
    which [titles] holds the title of the card exactly as the locator gave
    it. *)
Theorem main_stores_cards (web : string → http_outcome)
    (html_parser : string → node) (workers : Z) (sched : schedule)
    (elapsed : string) (d0 : db) :
  let cards := listing_cards web html_parser in
  let report := main web html_parser workers sched elapsed d0 in
  (∃ html, web URL = Response 200 html) →
  0 < workers → workers ≤ 10 ^ Z.of_nat Py.max_str_digits →
  valid_schedule workers (length cards) sched →
  (∀ card, card ∈ cards → well_formed_card card ∧ detail_fetch_succeeds web card) →
  ended report = Return tt
  ∧ (∃ results,
       outcome (scrape_jobs web html_parser workers sched) = Return results
       ∧ files report = [Makedirs "scrap"; WriteFile json_path (json_dumps results);
                         Makedirs "scrap"])
  ∧ ∀ i card, cards !! i = Some card →
      ∃ r row,
        outcome (extract_info web html_parser
                   (pool_thread_name (worker_of sched i)) i
                   (card_title i card) card) = Return (i, r)
        ∧ jobs (store report) !! Z.of_nat i = Some row
        ∧ (col_title_id row, card_title i card) ∈ rows (titles (store report))
        ∧ col_company row = company r
        ∧ col_ville row = ville (location r)
        ∧ col_date row = date r
        ∧ col_url row = url r
        ∧ col_content row = content r.
Proof.
  intros cards report Hweb Hw Hfits Hsched Hcards.
  destruct (scrape_jobs_result web html_parser workers sched Hweb Hw Hfits
              Hsched Hcards)
    as (results & Hres & Hnd & Hall).
  subst report. unfold main.
  destruct (scrape_jobs web html_parser workers sched) as [t o]. simpl in Hres.
  subst o. cbn [ended files store]. split; [done|]. split.
  - exists results. split; [done|]. reflexivity.
  - intros i card Hcard. destruct (Hall i card Hcard) as (r & Hin & Hrun).
    destruct (save_sqlite_row results d0 i r Hnd Hin)
      as (row & Hj & Ht & _ & Hco & Hvi & Hda & Hur & Hct).
    exists r, row. split; [done|]. split; [done|]. split; [|done].
    apply select_id_elem in Ht.
    assert (Htitle : title r = card_title i card).
    { rewrite extract_info_outcome in Hrun.
      destruct (href_missing card); [done|].
      destruct (Py.partition "," (location_text card)) as [[v rg]|]; [|done].
      destruct (outcome (detail_fetch _ _ _)); [|done].
      by injection Hrun as <-. }
    by rewrite Htitle, card_title_stripped in Ht.
Qed.

Lemma main_stores_cards_witness :
  let report := main Demo.web Demo.html_parser 8 (Demo.reversed 8 2)
                  "0.3" empty_db in
  8 ≤ 10 ^ Z.of_nat Py.max_str_digits
  ∧ valid_schedule 8 (length (listing_cards Demo.web Demo.html_parser))
      (Demo.reversed 8 2)
  ∧ ended report = Return tt
  ∧ ∃ row, jobs (store report) !! 0 = Some row
           ∧ col_company row = "Payne, Roberts and Davis".
Proof.
  intros report.
  assert (Hsched : valid_schedule 8
                     (length (listing_cards Demo.web Demo.html_parser))
                     (Demo.reversed 8 2))
    by (apply (reversed_valid 8 2); lia).
  assert (Hcards : ∀ card, card ∈ listing_cards Demo.web Demo.html_parser →
                     well_formed_card card ∧ detail_fetch_succeeds Demo.web card).
  { intros card. change (listing_cards _ _) with [Demo.card_full; Demo.card_bare].
    rewrite !elem_of_cons, elem_of_nil. intros [-> | [-> | []]].
    - split; [by split|]. intros _. by exists "<detail>".
    - split; [by split|]. by intros Hurl. }
  destruct (main_stores_cards Demo.web Demo.html_parser 8 (Demo.reversed 8 2)
              "0.3" empty_db ltac:(by exists "<listing>") ltac:(lia)
              pool_of_eight_fits Hsched Hcards) as (Hend & _ & Hrows).
  split; [exact pool_of_eight_fits|].
  split; [exact Hsched|]. split; [exact Hend|].
  destruct (Hrows 0%nat Demo.card_full eq_refl)
    as (r & row & Hrun & Hj & _ & Hco & _).
  exists row. split; [exact Hj|]. rewrite Hco. by injection Hrun as <-.
Defined.

(** X24: a run that scraped nothing.  If [scrape_jobs] raises, [main] ends
    with the same exception before either sink is called: no file is
    written and the store is as it was.  If the listing page is empty,
    [main] ends normally, the JSON file holds the empty object and the sink
    leaves the store as it was. *)
Theorem main_without_records (web : string → http_outcome)
    (html_parser : string → node) (workers : Z) (sched : schedule)
    (elapsed : string) (d0 : db) :
  let report := main web html_parser workers sched elapsed d0 in
  (∀ e, outcome (scrape_jobs web html_parser workers sched) = Raise e →
     ended report = Raise e ∧ files report = [] ∧ store report = d0)
  ∧ (outcome (fetch_html web URL (Some "")) = Return "" →
     ended report = Return tt
     ∧ files report = [Makedirs "scrap"; WriteFile json_path "{}"; Makedirs "scrap"]
     ∧ store report = d0).
Proof.
  intros report. subst report. unfold main. split.
  - intros e He. destruct (scrape_jobs _ _ _ _) as [t o]. simpl in He.
    by subst o.
  - intros Hfetch.
    assert (Hempty : outcome (scrape_jobs web html_parser workers sched)
                     = Return []).
    { unfold scrape_jobs. rewrite outcome_bind, Hfetch. done. }
    destruct (scrape_jobs _ _ _ _) as [t o]. simpl in Hempty. by subst o.
Qed.

Lemma main_without_records_witness :
  outcome (scrape_jobs Demo.web_down Demo.html_parser 5 (Demo.in_order 0))
  = Raise RequestException
  ∧ files (main Demo.web_down Demo.html_parser 5 (Demo.in_order 0) "0.1" empty_db)
    = []
  ∧ outcome (fetch_html Demo.web_404 URL (Some "")) = Return ""
  ∧ store (main Demo.web_404 Demo.html_parser 5 (Demo.in_order 0) "0.1" empty_db)
    = empty_db.
Proof.
  assert (H1 : outcome (scrape_jobs Demo.web_down Demo.html_parser 5
                          (Demo.in_order 0)) = Raise RequestException)
    by reflexivity.
  assert (H2 : outcome (fetch_html Demo.web_404 URL (Some "")) = Return "")
    by reflexivity.
  split; [exact H1|]. split; [|split; [exact H2|]].
  - exact (proj1 (proj2 (proj1 (main_without_records Demo.web_down
                                   Demo.html_parser 5 (Demo.in_order 0)
                                   "0.1" empty_db) _ H1))).
  - exact (proj2 (proj2 (proj2 (main_without_records Demo.web_404
                                   Demo.html_parser 5 (Demo.in_order 0)
                                   "0.1" empty_db) H2))).
Defined.
